(** * react-screen-wake-lock: the [useWakeLock] hook (src/use-wake-lock.ts)

    A shallow embedding of the hook's state machine, for one mounted
    instance of the hook.

    - The hook body runs at every render.  Each render creates a new
      [handleVisibilityReturn] function (line 57), and [React.useCallback]
      creates a new [request] or [destroy] whenever one of the option
      callbacks it depends on is a new function object.  A closure uses the
      handler of the render that created it.  Renders are numbered; a
      [HookEnv] is the scope of one render.  The callbacks an application
      passes at different renders may be different function objects, but
      they are taken to behave alike.

    - The mutable cells of the hook ([wakeLock.current], the React state
      [released]) and the parts of the host the hook touches (the sentinel
      objects handed out by [navigator.wakeLock.request], the document's
      'visibilitychange' listeners, [document.visibilityState]) are the fields
      of one [State] record.
    - Synchronous code runs in a state-and-exception monad [M].
    - An [async] function is cut at its [await]: a first part that runs up to
      the suspension and a continuation ([cont]) that the platform resumes
      when the awaited promise settles.  Suspended continuations sit in the
      [pending] field of the state.
    - Every observable effect is appended to a chronological [trace]. *)

From Stdlib Require Import String.
From stdpp Require Import base option list.

(** ** Values of the host environment *)

Definition Error := nat.        (* an opaque thrown value / rejection reason *)
Definition Event := nat.        (* an opaque DOM event object *)
Definition handle := nat.       (* the address of a WakeLockSentinel object *)

(** [type WakeLockType = "screen"] *)
Inductive WakeLockType := screen.

(** [document.visibilityState] *)
Inductive DocumentVisibilityState := visible | hidden.

(** The JavaScript values that the hook's boolean expressions range over. *)
Inductive jsval :=
| JUndefined
| JNull
| JBool (b : bool)
| JSentinel (h : handle).

Definition truthy (v : jsval) : bool :=
  match v with
  | JBool b => b
  | JSentinel _ => true
  | JUndefined | JNull => false
  end.

(** [a && b] and [a || b]: the result is one of the operands. *)
Definition js_and (a b : jsval) : jsval := if truthy a then b else a.
Definition js_or (a b : jsval) : jsval := if truthy a then a else b.

(** A platform sentinel.  [released] is an experimental field: [None] stands
    for a platform that does not define it (reading it gives [undefined]). *)
Record WakeLockSentinel := mkSentinel {
  sn_type : WakeLockType;
  sn_released : option bool;
  sn_onrelease : bool           (* has [request] installed its onrelease closure? *)
}.

(** The listeners of the document's 'visibilitychange' event.
    [HandleVisibilityReturn r] is the function that line 57 created at
    render [r]; [Foreign n] is a listener of other code. *)
Inductive listener :=
| HandleVisibilityReturn (r : nat)
| Foreign (n : nat).

Global Instance listener_eq_dec : EqDecision listener.
Proof. solve_decision. Defined.

(** [WakeLockOptions]: every callback is optional.  A callback is caller
    code; what the hook can observe of it is whether it returns ([None]) or
    throws ([Some x]). *)
Record WakeLockOptions := mkOptions {
  onError : option (Error -> option Error);
  onRequest : option (option Error);
  onRelease : option (Event -> option Error);
  onDestroy : option (option Error)
}.

(** ** Asynchrony *)

Inductive Op := OpRequest | OpRelease | OpDestroy.

(** Where an async function of the hook is suspended.  The [request] and
    the [destroy] that wait are closures: [r] is the render that created
    them. *)
Inductive cont :=
| KRequest (r : nat) (type : WakeLockType)
                                   (* line 38: await navigator.wakeLock.request(type) *)
| KRelease (h : handle)            (* line 79: await wakeLock.current.release() *)
| KDestroy (r : nat) (h : handle). (* line 95: await wakeLock.current.release().then(...) *)

Definition cont_op (k : cont) : Op :=
  match k with
  | KRequest _ _ => OpRequest
  | KRelease _ => OpRelease
  | KDestroy _ _ => OpDestroy
  end.

(** Who holds the promise an async function returned: the application
    ([Public]), or nobody, when the hook itself called the function and
    dropped the promise ([Internal]: line 34 and line 63). *)
Inductive Caller := Public | Internal.

Inductive PromiseState := Fulfilled | Rejected (e : Error).

(** What the synchronous part of an async function leaves behind. *)
Inductive async := Done | Await (k : cont).

(** How the platform settles a promise.  For an acquisition the fulfilment
    carries the initial [released] field of the fresh sentinel; for a
    sentinel's [release()] the payload is not used. *)
Inductive settlement :=
| Fulfil (released_field : option bool)
| RejectWith (e : Error).

(** ** Observable effects *)

Inductive effect :=
| EvWarn (content : string)                  (* console.warn *)
| EvAcquire (type : WakeLockType)            (* navigator.wakeLock.request(type) *)
| EvSentinelRelease (h : handle)             (* sentinel.release() *)
| EvSetCurrent (v : option handle)           (* wakeLock.current = ... *)
| EvSetOnrelease (h : handle)                (* sentinel.onrelease = ... *)
| EvAddListener (l : listener)               (* document.addEventListener *)
| EvRemoveListener (l : listener)            (* document.removeEventListener *)
| EvSetReleased (v : jsval)                  (* setReleased(...) *)
| EvOnError (e : Error)
| EvOnRequest
| EvOnRelease (e : Event)
| EvOnDestroy
| EvSettled (who : Caller) (op : Op) (p : PromiseState).

(** ** The state *)

Record State := mkState {
  current : option handle;                   (* wakeLock.current *)
  released : jsval;                          (* React state, [undefined] at first *)
  heap : list WakeLockSentinel;              (* sentinel objects, by address *)
  listeners : list listener;                 (* 'visibilitychange' listeners *)
  visibilityState : DocumentVisibilityState;
  pending : list (Caller * cont);            (* suspended async functions *)
  trace : list effect
}.

Definition initial : State :=
  mkState None JUndefined [] [] visible [] [].

Definition with_current (v : option handle) (s : State) : State :=
  mkState v (released s) (heap s) (listeners s) (visibilityState s) (pending s) (trace s).
Definition with_released (v : jsval) (s : State) : State :=
  mkState (current s) v (heap s) (listeners s) (visibilityState s) (pending s) (trace s).
Definition with_heap (hp : list WakeLockSentinel) (s : State) : State :=
  mkState (current s) (released s) hp (listeners s) (visibilityState s) (pending s) (trace s).
Definition with_listeners (ls : list listener) (s : State) : State :=
  mkState (current s) (released s) (heap s) ls (visibilityState s) (pending s) (trace s).
Definition with_visibility (v : DocumentVisibilityState) (s : State) : State :=
  mkState (current s) (released s) (heap s) (listeners s) v (pending s) (trace s).
Definition with_pending (p : list (Caller * cont)) (s : State) : State :=
  mkState (current s) (released s) (heap s) (listeners s) (visibilityState s) p (trace s).
Definition with_trace (t : list effect) (s : State) : State :=
  mkState (current s) (released s) (heap s) (listeners s) (visibilityState s) (pending s) t.

(** ** The monad of synchronous code *)

Inductive completion (A : Type) :=
| Normal (a : A)
| Throw (e : Error).
Arguments Normal {A} a.
Arguments Throw {A} e.

Definition M (A : Type) : Type := State -> completion A * State.

Definition ret {A} (a : A) : M A := fun s => (Normal a, s).
Definition throw {A} (e : Error) : M A := fun s => (Throw e, s).
Definition bind {A B} (m : M A) (k : A -> M B) : M B :=
  fun s => match m s with
           | (Normal a, s') => k a s'
           | (Throw e, s') => (Throw e, s')
           end.
(** [try { body } catch (error) { handler }] *)
Definition try_catch {A} (body : M A) (handler : Error -> M A) : M A :=
  fun s => match body s with
           | (Normal a, s') => (Normal a, s')
           | (Throw e, s') => handler e s'
           end.

Declare Scope hook_scope.
Delimit Scope hook_scope with hook.
Notation "x <- m ;; k" := (bind m (fun x => k))
  (at level 100, m at next level, k at level 200, right associativity) : hook_scope.
Notation "m ;; k" := (bind m (fun _ => k))
  (at level 100, k at level 200, right associativity) : hook_scope.
Open Scope hook_scope.

Definition gets {A} (f : State -> A) : M A := fun s => (Normal (f s), s).
Definition modify (f : State -> State) : M unit := fun s => (Normal tt, f s).
Definition emit (e : effect) : M unit :=
  modify (fun s => with_trace (trace s ++ [e]) s).
Definition when (b : bool) (m : M unit) : M unit := if b then m else ret tt.

(** Calling caller code: the call is observed, then it returns or throws. *)
Definition call (e : effect) (behaviour : option Error) : M unit :=
  emit e ;;
  match behaviour with
  | None => ret tt
  | Some x => throw x
  end.

(** [f && f(args)] for an optional callback. *)
Definition call_opt {A} (f : option A) (e : effect) (run_f : A -> option Error) : M unit :=
  match f with
  | None => ret tt
  | Some g => call e (run_f g)
  end.

(** ** Host primitives *)

(** [document.addEventListener]: a listener that is already registered for
    the event is not registered a second time. *)
Definition add_listener (l : listener) (ls : list listener) : list listener :=
  if decide (l ∈ ls) then ls else ls ++ [l].

Definition remove_listener (l : listener) (ls : list listener) : list listener :=
  filter (fun x => x ≠ l) ls.

Definition addEventListener (l : listener) : M unit :=
  emit (EvAddListener l) ;;
  modify (fun s => with_listeners (add_listener l (listeners s)) s).

Definition removeEventListener (l : listener) : M unit :=
  emit (EvRemoveListener l) ;;
  modify (fun s => with_listeners (remove_listener l (listeners s)) s).

Definition set_current (v : option handle) : M unit :=
  emit (EvSetCurrent v) ;; modify (with_current v).

Definition setReleased (v : jsval) : M unit :=
  emit (EvSetReleased v) ;; modify (with_released v).

(** [sentinel.onrelease = (e) => ...] on the object at address [h]. *)
Definition install (sn : WakeLockSentinel) : WakeLockSentinel :=
  mkSentinel (sn_type sn) (sn_released sn) true.

Definition set_onrelease (h : handle) : M unit :=
  emit (EvSetOnrelease h) ;;
  modify (fun s => with_heap (alter install h (heap s)) s).

Definition current_val (s : State) : jsval :=
  match current s with
  | Some h => JSentinel h
  | None => JNull
  end.

Definition field_val (f : option bool) : jsval :=
  match f with
  | Some b => JBool b
  | None => JUndefined
  end.

(** [wakeLock.current.released], read only where [wakeLock.current] is an
    object. *)
Definition current_released (s : State) : jsval :=
  match current s with
  | Some h => match heap s !! h with
              | Some sn => field_val (sn_released sn)
              | None => JUndefined
              end
  | None => JUndefined
  end.

(** [wakeLock.current && wakeLock.current.released] *)
Definition current_and_released (s : State) : jsval :=
  js_and (current_val s) (current_released s).

(** [x != null] and [x == null] for the reference cell. *)
Definition non_null (c : option handle) : bool :=
  match c with
  | Some _ => true
  | None => false
  end.
Definition is_null (c : option handle) : bool := negb (non_null c).

Definition is_visible (v : DocumentVisibilityState) : bool :=
  match v with
  | visible => true
  | hidden => false
  end.

(** Calling an async function: it runs to its first suspension and hands
    back a promise; nothing is thrown to the caller.  [who] says whether
    anybody keeps that promise. *)
Definition spawn (who : Caller) (op : Op) (m : M async) : M unit :=
  fun s => match m s with
           | (Normal Done, s') => emit (EvSettled who op Fulfilled) s'
           | (Normal (Await k), s') =>
               (Normal tt, with_pending (pending s' ++ [(who, k)]) s')
           | (Throw e, s') => emit (EvSettled who op (Rejected e)) s'
           end.

(** ** The hook *)

(** The scope of the closures in use: the result of the feature test of
    line 23, the options the hook was called with, and [render], the render
    that created the [request] in use and, in the same scope, the
    [handleVisibilityReturn] which that [request] registers and which calls
    it back.  [destroy_of r] is the render that created the [destroy] found
    in the scope of render [r]: [React.useCallback] (line 100) hands back
    the function of an earlier render as long as [onDestroy] is the same
    function object. *)
Class HookEnv := mkEnv {
  isSupported : bool;
  options : WakeLockOptions;
  render : nat;
  destroy_of : nat -> nat
}.

(** The scope of render [r] of the same hook. *)
Definition at_render (r : nat) (env : HookEnv) : HookEnv :=
  mkEnv isSupported options r destroy_of.

Section Teardown.

Context {env : HookEnv}.

(** Lines 3-4. *)
Definition warning (content : string) : effect :=
  EvWarn ("[react-screen-wake-lock]: " ++ content).

Definition warn (content : string) : M unit := emit (warning content).

Definition request_unsupported_text : string :=
  "Calling the `request` function has no effect, Wake Lock Screen API isn't supported".
Definition release_unsupported_text : string :=
  "Calling the `release` function has no effect, Wake Lock Screen API isn't supported".
Definition destroy_unsupported_text : string :=
  "Calling the `destroy` function has no effect, Wake Lock Screen API isn't supported".
Definition release_before_request_text : string :=
  "Calling `release` before `request` has no effect.".
Definition destroy_before_request_text : string :=
  "Calling `destroy` before `request` has no effect.".

(** Lines 82-95, up to the [await]. *)
Definition destroy : M async :=
  isWakeLockUndefined <- gets (fun s => is_null (current s)) ;;
  if negb isSupported then
    warn destroy_unsupported_text ;;
    ret Done
  else if (isWakeLockUndefined : bool) then
    warn destroy_before_request_text ;;
    ret Done
  else
    cur <- gets current ;;
    match cur with
    | None => ret Done
    | Some h => emit (EvSentinelRelease h) ;; ret (Await (KDestroy render h))
    end.

(** Lines 96-98: the [then] callback. *)
Definition destroy_then : M unit :=
  removeEventListener (HandleVisibilityReturn render) ;;
  set_current None ;;
  call_opt (onDestroy options) EvOnDestroy (fun f => f).

(** Line 95 once the sentinel's promise has settled. *)
Definition destroy_resume (r : settlement) : M unit :=
  match r with
  | Fulfil _ => destroy_then
  | RejectWith e => throw e
  end.

(** Lines 67-79, up to the [await]. *)
Definition release : M async :=
  isWakeLockUndefined <- gets (fun s => is_null (current s)) ;;
  if negb isSupported then
    warn release_unsupported_text ;;
    ret Done
  else if (isWakeLockUndefined : bool) then
    warn release_before_request_text ;;
    ret Done
  else
    cur <- gets current ;;
    match cur with
    | None => ret Done
    | Some h => emit (EvSentinelRelease h) ;; ret (Await (KRelease h))
    end.

(** Line 79 once the sentinel's promise has settled. *)
Definition release_resume (r : settlement) : M unit :=
  match r with
  | Fulfil _ => ret tt
  | RejectWith e => throw e
  end.

(** Lines 40-44: the closure stored in [sentinel.onrelease]. *)
Definition onrelease (e : Event) : M unit :=
  v <- gets (fun s => js_or (current_and_released s) (JBool true)) ;;
  setReleased v ;;
  call_opt (onRelease options) (EvOnRelease e) (fun f => f e).

End Teardown.

Section Request.

Context {env : HookEnv}.

(** Lines 26-38, up to the [await].  The [destroy] of line 34 is the one
    this render holds. *)
Definition request (type : WakeLockType) : M async :=
  isWakeLockAlreadyDefined <- gets (fun s => non_null (current s)) ;;
  if negb isSupported then
    warn request_unsupported_text ;;
    ret Done
  else
    when isWakeLockAlreadyDefined
      (spawn Internal OpDestroy (destroy (env := at_render (destroy_of render) env))) ;;
    emit (EvAcquire type) ;;
    ret (Await (KRequest render type)).

(** Lines 37-52 once the acquisition has settled: [inr h] is the address
    of the sentinel the platform resolved with, [inl e] a rejection. *)
Definition request_resume (r : Error + handle) : M unit :=
  try_catch
    (h <- match r with
          | inl e => throw e
          | inr h => ret h
          end ;;
     set_current (Some h) ;;
     set_onrelease h ;;
     addEventListener (HandleVisibilityReturn render) ;;
     call_opt (onRequest options) EvOnRequest (fun f => f) ;;
     v <- gets (fun s => js_or (current_and_released s) (JBool false)) ;;
     setReleased v)
    (fun error => call_opt (onError options) (EvOnError error) (fun f => f error)).

(** Lines 57-65. *)
Definition handleVisibilityReturn : M unit :=
  c <- gets (fun s => js_and (js_and (JBool (is_visible (visibilityState s)))
                                     (current_val s))
                             (current_released s)) ;;
  when (truthy c) (spawn Internal OpRequest (request screen)).

End Request.

(** ** The platform and the application around the hook *)

Section EventLoop.

Context {env : HookEnv}.

(** A registered handler is the function of the render that created it. *)
Definition run_listener (l : listener) : M unit :=
  match l with
  | HandleVisibilityReturn r => handleVisibilityReturn (env := at_render r env)
  | Foreign _ => ret tt
  end.

(** Dispatching an event calls the listeners registered at that moment. *)
Fixpoint dispatch (ls : list listener) : M unit :=
  match ls with
  | [] => ret tt
  | l :: ls' => try_catch (run_listener l) (fun _ => ret tt) ;; dispatch ls'
  end.

(** The platform releases the lock behind sentinel [h]: the [released]
    field, where the platform has it, becomes true, and the 'release' event
    is fired at the sentinel. *)
Definition platform_release (h : handle) (e : Event) : M unit :=
  sn <- gets (fun s => heap s !! h) ;;
  match sn with
  | None => ret tt
  | Some sn =>
      modify (fun s => with_heap
                (<[h := mkSentinel (sn_type sn) ((fun _ => true) <$> sn_released sn)
                                    (sn_onrelease sn)]> (heap s)) s) ;;
      when (sn_onrelease sn) (onrelease e)
  end.

(** The end of an async function settles the promise it returned. *)
Definition finish (who : Caller) (op : Op) (m : M unit) : M unit :=
  fun s => match m s with
           | (Normal _, s') => emit (EvSettled who op Fulfilled) s'
           | (Throw e, s') => emit (EvSettled who op (Rejected e)) s'
           end.

(** The platform settles the promise that the [i]-th suspended function
    awaits. *)
Definition settle (i : nat) (r : settlement) : M unit :=
  p <- gets (fun s => pending s !! i) ;;
  match p with
  | None => ret tt
  | Some (who, k) =>
      modify (fun s => with_pending (delete i (pending s)) s) ;;
      match k with
      | KRequest c type =>
          match r with
          | Fulfil fld =>
              h <- gets (fun s => length (heap s)) ;;
              modify (fun s => with_heap (heap s ++ [mkSentinel type fld false]) s) ;;
              finish who OpRequest (request_resume (env := at_render c env) (inr h))
          | RejectWith e =>
              finish who OpRequest (request_resume (env := at_render c env) (inl e))
          end
      | KRelease _ => finish who OpRelease (release_resume r)
      | KDestroy c _ => finish who OpDestroy (destroy_resume (env := at_render c env) r)
      end
  end.

(** The application calls the functions of the object that render [render]
    returned. *)
Inductive action :=
| ARequest (type : WakeLockType)            (* the application calls request(type) *)
| ARelease                                  (* the application calls release() *)
| ADestroy                                  (* the application calls destroy() *)
| ASettle (i : nat) (r : settlement)        (* a platform promise settles *)
| APlatformRelease (h : handle) (e : Event) (* the platform releases a lock *)
| AVisibilityChange (v : DocumentVisibilityState)
| AForeignListener (n : nat).               (* other code listens to the event *)

Definition perform (a : action) : M unit :=
  match a with
  | ARequest type => spawn Public OpRequest (request type)
  | ARelease => spawn Public OpRelease release
  | ADestroy =>
      spawn Public OpDestroy (destroy (env := at_render (destroy_of render) env))
  | ASettle i r => settle i r
  | APlatformRelease h e => try_catch (platform_release h e) (fun _ => ret tt)
  | AVisibilityChange v =>
      modify (with_visibility v) ;;
      ls <- gets listeners ;;
      dispatch ls
  | AForeignListener n => addEventListener (Foreign n)
  end.

(** One turn of the event loop, and a whole schedule of turns. *)
Definition exec (a : action) (s : State) : State := snd (perform a s).

Definition run (l : list action) (s : State) : State :=
  foldl (fun st a => exec a st) s l.

End EventLoop.

(** A schedule over several renders: each turn names the render whose
    closures the application calls in it. *)
Definition run_renders {env : HookEnv} (l : list (nat * action)) (s : State) : State :=
  foldl (fun st ra => exec (env := at_render ra.1 env) ra.2 st) s l.

(** ** Concrete environments, states and schedules *)

Definition no_callbacks : WakeLockOptions := mkOptions None None None None.

Definition all_callbacks : WakeLockOptions :=
  mkOptions (Some (fun _ => None)) (Some None) (Some (fun _ => None)) (Some None).

(** [onRequest] throws 42; [onError] is there and returns. *)
Definition onRequest_throws : WakeLockOptions :=
  mkOptions (Some (fun _ => None)) (Some (Some 42)) None None.

(** A hook whose option callbacks keep their identity: every closure is the
    one of the first render. *)
Definition supported (o : WakeLockOptions) : HookEnv := mkEnv true o 0 (fun _ => 0).
Definition unsupported (o : WakeLockOptions) : HookEnv := mkEnv false o 0 (fun _ => 0).

(** A hook whose option callbacks are new function objects at every render
    (inline arrow functions): every render creates its own [request] and
    [destroy].  [inline o r] is the scope of render [r]. *)
Definition inline (o : WakeLockOptions) (r : nat) : HookEnv := mkEnv true o r (fun k => k).

(** One successful [request("screen")]: sentinel 0 is held. *)
Definition acquire_once : list action :=
  [ARequest screen; ASettle 0 (Fulfil (Some false))].

Definition held : State := run (env := supported all_callbacks) acquire_once initial.

(** A [request] whose acquisition the platform refuses with error 7. *)
Definition refused_request : list action :=
  [ARequest screen; ASettle 0 (RejectWith 7)].

(** A [release()] of the held sentinel whose promise rejects with error 7. *)
Definition rejected_release : list action :=
  acquire_once ++ [ARelease; ASettle 0 (RejectWith 7)].

(** The platform has just created sentinel 0 for a pending [request]; the
    hook's callbacks are those of [onRequest_throws]. *)
Definition granted : State :=
  with_heap [mkSentinel screen (Some false) false]
    (exec (env := supported onRequest_throws) (ARequest screen) initial).

(** What may follow a successful acquisition: a refused second request, a
    platform release, a visibility change, a destroy that completes. *)
Definition eventful : list action :=
  [ARequest screen; ASettle 1 (RejectWith 7); APlatformRelease 0 3;
   AVisibilityChange hidden; AVisibilityChange visible; ADestroy;
   ASettle 0 (Fulfil None)].

(** A second [request] while sentinel 0 is held; the new acquisition
    resolves before the promise of the old sentinel's [release()]. *)
Definition request_twice_acquire_first : list action :=
  acquire_once ++ [ARequest screen; ASettle 1 (Fulfil (Some false)); ASettle 0 (Fulfil None)].

(** The same, with the old sentinel's [release()] resolving first. *)
Definition request_twice_release_first : list action :=
  acquire_once ++ [ARequest screen; ASettle 0 (Fulfil None); ASettle 0 (Fulfil (Some false))].

(** A second [request] whose acquisition has resolved (sentinel 1 is in
    [wakeLock.current], not released) while the teardown of sentinel 0 is
    still waiting. *)
Definition superseding : State :=
  run (env := supported all_callbacks)
      (acquire_once ++ [ARequest screen; ASettle 1 (Fulfil (Some false))]) initial.

(** An application that passes inline option callbacks, so that every
    render creates its own [request], [destroy] and handler.  Render 0
    requests the lock; [setReleased(false)] re-renders. *)
Definition inline_held : State :=
  run (env := inline all_callbacks 0) acquire_once initial.

(** The application then calls the [destroy] that render 1 returned; the
    platform fires the release event ([setReleased(true)] re-renders) and
    the teardown completes. *)
Definition inline_destroyed : State :=
  run (env := inline all_callbacks 1)
      [ADestroy; APlatformRelease 0 3; ASettle 0 (Fulfil None)] inline_held.



(** Every cell but [pending] and [trace] is the same in both states. *)
Definition same_cells (s s' : State) : Prop :=
  current s' = current s /\ released s' = released s /\ heap s' = heap s /\
  listeners s' = listeners s /\ visibilityState s' = visibilityState s.

(** The three conditions of [handleVisibilityReturn], as a boolean:
    visibility [v], a sentinel in [wakeLock.current], and its [released]
    field reading true. *)
Definition flag_reads_true (s : State) : bool :=
  match current s with
  | Some h => match heap s !! h with
              | Some sn => match sn_released sn with
                           | Some true => true
                           | _ => false
                           end
              | None => false
              end
  | None => false
  end.

Definition visible_held_released (v : DocumentVisibilityState) (s : State) : bool :=
  is_visible v && non_null (current s) && flag_reads_true s.

Definition is_acquire (e : effect) : bool :=
  match e with
  | EvAcquire _ => true
  | _ => false
  end.

(** How many times [navigator.wakeLock.request] has been called. *)
Definition acquisitions (t : list effect) : nat :=
  length (List.filter is_acquire t).

Definition is_write (e : effect) : bool :=
  match e with
  | EvSetReleased _ => true
  | _ => false
  end.


Definition is_handler (l : listener) : bool :=
  match l with
  | HandleVisibilityReturn _ => true
  | Foreign _ => false
  end.

(** How many [handleVisibilityReturn] functions, of whatever render, are
    registered. *)
Definition count_handler (ls : list listener) : nat :=
  length (List.filter is_handler ls).

(** The effects of calling an optional callback. *)
Definition called {A} (f : option A) (e : effect) : list effect :=
  match f with
  | Some _ => [e]
  | None => []
  end.

(** The promise state an async function ends in. *)
Definition promise_of {A} (c : completion A) : PromiseState :=
  match c with
  | Normal _ => Fulfilled
  | Throw e => Rejected e
  end.

(** What calling an optional callback completes with. *)
Definition outcome_of {A} (f : option A) (run_f : A -> option Error) : completion unit :=
  match f with
  | Some g => match run_f g with
              | Some x => Throw x
              | None => Normal tt
              end
  | None => Normal tt
  end.

(** The state right after lines 38-46 have run with sentinel [h]: the
    reference is stored, the closure installed, the listener registered. *)
Definition stored {env : HookEnv} (h : handle) (s : State) : State :=
  mkState (Some h) (released s) (alter install h (heap s))
    (add_listener (HandleVisibilityReturn render) (listeners s))
    (visibilityState s) (pending s)
    (trace s ++ [EvSetCurrent (Some h); EvSetOnrelease h;
                 EvAddListener (HandleVisibilityReturn render)]).

(** Every closure in the state is one of render [render]: the registered
    handlers, the suspended [request]s, and the suspended [destroy]s, which
    are the [destroy] that render holds. *)
Definition own_cont {env : HookEnv} (k : cont) : Prop :=
  match k with
  | KRequest r _ => r = render
  | KRelease _ => True
  | KDestroy d _ => d = destroy_of render
  end.

Definition own_scope {env : HookEnv} (s : State) : Prop :=
  (forall r, HandleVisibilityReturn r ∈ listeners s -> r = render) /\
  (forall who k, (who, k) ∈ pending s -> own_cont k).

(** What holds of the cells in every state that the closures of one render
    can bring about: no listener is registered twice; while a sentinel is
    referenced the visibility handler is registered; without the capability
    nothing is ever referenced or awaited; every closure is of that render. *)
Definition well_formed {env : HookEnv} (s : State) : Prop :=
  NoDup (listeners s) /\
  (current s <> None -> HandleVisibilityReturn render ∈ listeners s) /\
  (isSupported = false -> current s = None /\ pending s = []) /\
  own_scope s.

(** The referenced sentinel exists and carries the release closure. *)
Definition referenced_live (s : State) : Prop :=
  forall h, current s = Some h ->
            exists sn, heap s !! h = Some sn /\ sn_onrelease sn = true.

(** The visibility handler is registered only while a sentinel is
    referenced, and the referenced sentinel is live. *)
Definition coherent {env : HookEnv} (s : State) : Prop :=
  (HandleVisibilityReturn render ∈ listeners s -> current s <> None) /\
  referenced_live s.

(** The effects a hook without the capability can have: a warning, the
    fulfilment of a promise, and what other code registers. *)
Definition inert_effect (e : effect) : bool :=
  match e with
  | EvWarn _ => true
  | EvSettled _ _ Fulfilled => true
  | EvAddListener (Foreign _) => true
  | _ => false
  end.

(** The hook has done nothing but warn. *)
Definition inert (s : State) : Prop :=
  current s = None /\ released s = JUndefined /\ heap s = [] /\ pending s = []
  /\ (forall r, HandleVisibilityReturn r ∉ listeners s)
  /\ Forall (fun e => inert_effect e = true) (trace s).

(** What line 49 stores for a fresh sentinel whose field is [fld]. *)
Definition initial_status (fld : option bool) : bool :=
  match fld with
  | Some true => true
  | _ => false
  end.

(** The sentinel at [h] once the platform has released its lock. *)
Definition released_sentinel (sn : WakeLockSentinel) : WakeLockSentinel :=
  mkSentinel (sn_type sn) ((fun _ => true) <$> sn_released sn) (sn_onrelease sn).

(** One successful [request("screen")] on a platform whose sentinels have
    no [released] field. *)
Definition held_no_field : State :=
  run (env := supported all_callbacks)
      [ARequest screen; ASettle 0 (Fulfil None)] initial.

(** [m] keeps the state property [I]. *)
Definition preserved {A} (I : State -> Prop) (m : M A) : Prop :=
  forall s, I s -> I (snd (m s)).

(** * Properties *)

Ltac munfold :=
  cbv beta iota delta
    [bind ret throw try_catch gets modify emit when call call_opt spawn finish
     set_current setReleased set_onrelease addEventListener removeEventListener warn
     with_current with_released with_heap with_listeners with_visibility
     with_pending with_trace called outcome_of promise_of negb non_null is_null
     current released heap listeners visibilityState pending trace fst snd].

Ltac tidy := repeat (rewrite <- app_assoc; simpl); simpl.

(** ** Values written to [released] *)

Lemma current_and_released_falsy_or_true (s : State) :
  truthy (current_and_released s) = true -> current_and_released s = JBool true.
Proof.
  unfold current_and_released, current_val, current_released, js_and.
  destruct (current s) as [h|]; simpl; [|discriminate].
  destruct (heap s !! h) as [[ty [[|]|] inst]|]; simpl; intros H;
    first [reflexivity | discriminate].
Qed.

Lemma release_value (s : State) :
  js_or (current_and_released s) (JBool true) = JBool true.
Proof.
  unfold js_or. destruct (truthy (current_and_released s)) eqn:E; [|reflexivity].
  now apply current_and_released_falsy_or_true.
Qed.

Lemma request_value (s : State) :
  js_or (current_and_released s) (JBool false) = JBool (flag_reads_true s).
Proof.
  unfold js_or, current_and_released, current_val, current_released, js_and,
    flag_reads_true.
  destruct (current s) as [h|]; simpl; [|reflexivity].
  destruct (heap s !! h) as [[ty [[|]|] inst]|]; reflexivity.
Qed.

Lemma written_value_is_bool (s : State) (b : bool) :
  exists b', js_or (current_and_released s) (JBool b) = JBool b'.
Proof.
  destruct b; [rewrite release_value | rewrite request_value]; eauto.
Qed.

Section Blocks.

Context {env : HookEnv}.

(** ** What each synchronous block does to the state *)

Lemma destroy_then_eq (s : State) :
  destroy_then s =
    (outcome_of (onDestroy options) (fun f => f),
     mkState None (released s) (heap s)
       (remove_listener (HandleVisibilityReturn render) (listeners s))
       (visibilityState s) (pending s)
       (trace s ++ [EvRemoveListener (HandleVisibilityReturn render); EvSetCurrent None]
                ++ called (onDestroy options) EvOnDestroy)).
Proof.
  unfold destroy_then. destruct s, (onDestroy options) as [[x|]|];
    munfold; tidy; reflexivity.
Qed.

Lemma destroy_active (s : State) (h : handle) :
  isSupported = true -> current s = Some h ->
  destroy s = (Normal (Await (KDestroy render h)),
               with_trace (trace s ++ [EvSentinelRelease h]) s).
Proof.
  intros Hs Hc. unfold destroy. destruct s; simpl in Hc; subst.
  rewrite Hs. munfold. reflexivity.
Qed.

Lemma release_active (s : State) (h : handle) :
  isSupported = true -> current s = Some h ->
  release s = (Normal (Await (KRelease h)),
               with_trace (trace s ++ [EvSentinelRelease h]) s).
Proof.
  intros Hs Hc. unfold release. destruct s; simpl in Hc; subst.
  rewrite Hs. munfold. reflexivity.
Qed.

Lemma onrelease_eq (e : Event) (s : State) :
  onrelease e s =
    (outcome_of (onRelease options) (fun f => f e),
     with_released (JBool true)
       (with_trace (trace s ++ [EvSetReleased (JBool true)]
                            ++ called (onRelease options) (EvOnRelease e)) s)).
Proof.
  unfold onrelease. munfold. rewrite release_value.
  destruct s, (onRelease options) as [f|]; munfold.
  - destruct (f e); tidy; reflexivity.
  - reflexivity.
Qed.

End Blocks.

Lemma at_render_self {env : HookEnv} : at_render render env = env.
Proof. destruct env. reflexivity. Qed.

Section RequestBlocks.

Context {env : HookEnv}.

Lemma request_active (type : WakeLockType) (s : State) (h : handle) :
  isSupported = true -> current s = Some h ->
  request type s =
    (Normal (Await (KRequest render type)),
     with_pending (pending s ++ [(Internal, KDestroy (destroy_of render) h)])
       (with_trace (trace s ++ [EvSentinelRelease h; EvAcquire type]) s)).
Proof.
  intros Hs Hc. unfold request, bind, gets. rewrite Hs, Hc. simpl.
  unfold spawn.
  rewrite (destroy_active (env := at_render (destroy_of render) env) s h Hs Hc).
  destruct s. munfold. tidy. reflexivity.
Qed.

Lemma request_idle (type : WakeLockType) (s : State) :
  isSupported = true -> current s = None ->
  request type s =
    (Normal (Await (KRequest render type)), with_trace (trace s ++ [EvAcquire type]) s).
Proof.
  intros Hs Hc. unfold request. destruct s; simpl in Hc; subst.
  rewrite Hs. munfold. reflexivity.
Qed.

Lemma request_resume_rejected (e : Error) (s : State) :
  request_resume (inl e) s =
    (outcome_of (onError options) (fun f => f e),
     with_trace (trace s ++ called (onError options) (EvOnError e)) s).
Proof.
  unfold request_resume. destruct s, (onError options) as [f|]; munfold.
  - destruct (f e); reflexivity.
  - rewrite app_nil_r. reflexivity.
Qed.

Lemma request_resume_resolved (h : handle) (s : State) :
  request_resume (inr h) s =
    match onRequest options with
    | Some (Some x) =>
        (outcome_of (onError options) (fun f => f x),
         with_trace (trace (stored h s) ++ [EvOnRequest]
                       ++ called (onError options) (EvOnError x)) (stored h s))
    | _ =>
        (Normal tt,
         with_released (JBool (flag_reads_true (stored h s)))
           (with_trace (trace (stored h s) ++ called (onRequest options) EvOnRequest
                          ++ [EvSetReleased (JBool (flag_reads_true (stored h s)))])
              (stored h s)))
    end.
Proof.
  unfold request_resume.
  destruct (onRequest options) as [[x|]|].
  - destruct s, (onError options) as [f|]; munfold; unfold stored; simpl.
    + destruct (f x); tidy; reflexivity.
    + tidy. reflexivity.
  - munfold. rewrite request_value. destruct s; unfold stored; simpl.
    tidy. reflexivity.
  - munfold. rewrite request_value. destruct s; unfold stored; simpl.
    tidy. reflexivity.
Qed.

End RequestBlocks.

(** ** Invariants that only depend on [released] and on the writes in the trace *)

Section ReleasedInvariant.

Variable I : State -> Prop.

(** [I] does not look at the other cells, survives every effect that is
    not a [setReleased], and survives a [setReleased] of a boolean. *)
Hypothesis I_cells : forall s c hp ls v p,
  I s -> I (mkState c (released s) hp ls v p (trace s)).
Hypothesis I_emit : forall s e,
  is_write e = false -> I s -> I (with_trace (trace s ++ [e]) s).
Hypothesis I_write : forall s b,
  I s -> I (with_released (JBool b) (with_trace (trace s ++ [EvSetReleased (JBool b)]) s)).

Lemma pres_ret {A} (a : A) : preserved I (ret a).
Proof. intros s H. exact H. Qed.

Lemma pres_throw {A} (e : Error) : preserved I (@throw A e).
Proof. intros s H. exact H. Qed.

Lemma pres_bind {A B} (m : M A) (k : A -> M B) :
  preserved I m -> (forall a, preserved I (k a)) -> preserved I (bind m k).
Proof.
  intros Hm Hk s H. unfold bind. specialize (Hm s H).
  destruct (m s) as [[a|e] s']; simpl in *; [apply Hk|]; assumption.
Qed.

Lemma pres_gets_bind {A B} (f : State -> A) (k : A -> M B) :
  (forall s, I s -> I (snd (k (f s) s))) -> preserved I (bind (gets f) k).
Proof. intros Hk s H. unfold bind, gets. apply Hk, H. Qed.

Lemma pres_try_catch {A} (m : M A) (k : Error -> M A) :
  preserved I m -> (forall e, preserved I (k e)) -> preserved I (try_catch m k).
Proof.
  intros Hm Hk s H. unfold try_catch. specialize (Hm s H).
  destruct (m s) as [[a|e] s']; simpl in *; [|apply Hk]; assumption.
Qed.

Lemma pres_modify (f : State -> State) :
  (forall s, I s -> I (f s)) -> preserved I (modify f).
Proof. intros Hf s H. apply Hf, H. Qed.

Lemma pres_emit (e : effect) : is_write e = false -> preserved I (emit e).
Proof. intros He s H. apply I_emit; assumption. Qed.

Lemma pres_when (b : bool) (m : M unit) : preserved I m -> preserved I (when b m).
Proof. destruct b; [trivial | intros _; apply pres_ret]. Qed.

Lemma pres_call_opt {A} (f : option A) (e : effect) (run_f : A -> option Error) :
  is_write e = false -> preserved I (call_opt f e run_f).
Proof.
  intros He. destruct f as [g|]; [|apply pres_ret].
  apply pres_bind; [apply pres_emit, He|].
  intros _. destruct (run_f g); [apply pres_throw | apply pres_ret].
Qed.

Lemma pres_spawn (who : Caller) (op : Op) (m : M async) :
  preserved I m -> preserved I (spawn who op m).
Proof.
  intros Hm s H. unfold spawn. specialize (Hm s H).
  destruct (m s) as [[[|k]|e] s']; simpl in *.
  - apply I_emit; [reflexivity | assumption].
  - apply (I_cells s'). assumption.
  - apply I_emit; [reflexivity | assumption].
Qed.

Lemma pres_finish (who : Caller) (op : Op) (m : M unit) :
  preserved I m -> preserved I (finish who op m).
Proof.
  intros Hm s H. unfold finish. specialize (Hm s H).
  destruct (m s) as [[a|e] s']; simpl in *;
    (apply I_emit; [reflexivity | assumption]).
Qed.

Lemma pres_cells (e : effect) (f : State -> State) :
  is_write e = false ->
  (forall s, released (f s) = released s /\ trace (f s) = trace s) ->
  preserved I (emit e ;; modify f).
Proof.
  intros He Hf. apply pres_bind; [apply pres_emit, He|]. intros _.
  apply pres_modify. intros s H. destruct (Hf s) as [Hr Ht].
  pose proof (I_cells s (current (f s)) (heap (f s)) (listeners (f s))
                (visibilityState (f s)) (pending (f s)) H) as H'.
  rewrite <- Hr, <- Ht in H'. destruct (f s). exact H'.
Qed.

Lemma pres_setReleased_bool (b : bool) : preserved I (setReleased (JBool b)).
Proof. intros s H. apply (I_write s b H). Qed.

Lemma pres_destroy {env : HookEnv} : preserved I destroy.
Proof.
  unfold destroy. apply pres_gets_bind. intros s H.
  destruct (negb isSupported).
  { apply pres_bind; [apply pres_emit; reflexivity | intros; apply pres_ret | exact H]. }
  destruct (is_null (current s)).
  { apply pres_bind; [apply pres_emit; reflexivity | intros; apply pres_ret | exact H]. }
  revert s H. apply pres_gets_bind. intros s H.
  destruct (current s); [|exact H].
  apply pres_bind; [apply pres_emit; reflexivity | intros; apply pres_ret | exact H].
Qed.

Lemma pres_release {env : HookEnv} : preserved I release.
Proof.
  unfold release. apply pres_gets_bind. intros s H.
  destruct (negb isSupported).
  { apply pres_bind; [apply pres_emit; reflexivity | intros; apply pres_ret | exact H]. }
  destruct (is_null (current s)).
  { apply pres_bind; [apply pres_emit; reflexivity | intros; apply pres_ret | exact H]. }
  revert s H. apply pres_gets_bind. intros s H.
  destruct (current s); [|exact H].
  apply pres_bind; [apply pres_emit; reflexivity | intros; apply pres_ret | exact H].
Qed.

Lemma pres_request {env : HookEnv} (type : WakeLockType) : preserved I (request type).
Proof.
  unfold request. apply pres_gets_bind. intros s H.
  destruct (negb isSupported).
  { apply pres_bind; [apply pres_emit; reflexivity | intros; apply pres_ret | exact H]. }
  apply pres_bind; [apply pres_when, pres_spawn, pres_destroy | | exact H].
  intros _. apply pres_bind; [apply pres_emit; reflexivity | intros; apply pres_ret].
Qed.

Lemma pres_destroy_then {env : HookEnv} : preserved I destroy_then.
Proof.
  unfold destroy_then. apply pres_bind.
  { apply pres_cells; [reflexivity | intros s; split; reflexivity]. }
  intros _. apply pres_bind.
  { apply pres_cells; [reflexivity | intros s; split; reflexivity]. }
  intros _. apply pres_call_opt. reflexivity.
Qed.

Lemma pres_onrelease {env : HookEnv} (e : Event) : preserved I (onrelease e).
Proof.
  unfold onrelease. apply pres_gets_bind. intros s H.
  rewrite release_value. revert s H. apply pres_bind.
  { apply pres_setReleased_bool. }
  intros _. apply pres_call_opt. reflexivity.
Qed.

Lemma pres_request_resume {env : HookEnv} (r : Error + handle) : preserved I (request_resume r).
Proof.
  unfold request_resume. apply pres_try_catch.
  2: { intros e. apply pres_call_opt. reflexivity. }
  apply pres_bind.
  { destruct r; [apply pres_throw | apply pres_ret]. }
  intros h. apply pres_bind.
  { apply pres_cells; [reflexivity | intros s; split; reflexivity]. }
  intros _. apply pres_bind.
  { apply pres_cells; [reflexivity | intros s; split; reflexivity]. }
  intros _. apply pres_bind.
  { apply pres_cells; [reflexivity | intros s; split; reflexivity]. }
  intros _. apply pres_bind.
  { apply pres_call_opt. reflexivity. }
  intros _. apply pres_gets_bind. intros s H.
  rewrite request_value. apply pres_setReleased_bool, H.
Qed.

Lemma pres_handleVisibilityReturn {env : HookEnv} : preserved I handleVisibilityReturn.
Proof.
  unfold handleVisibilityReturn. apply pres_bind.
  { intros s H. exact H. }
  intros c. apply pres_when, pres_spawn, pres_request.
Qed.

Lemma pres_dispatch {env : HookEnv} (ls : list listener) : preserved I (dispatch ls).
Proof.
  induction ls as [|l ls IH]; simpl; [apply pres_ret|].
  apply pres_bind; [|intros _; exact IH].
  apply pres_try_catch; [|intros; apply pres_ret].
  destruct l as [r|n]; [apply pres_handleVisibilityReturn | apply pres_ret].
Qed.

Lemma pres_platform_release {env : HookEnv} (h : handle) (e : Event) :
  preserved I (platform_release h e).
Proof.
  unfold platform_release. apply pres_bind; [intros s H; exact H|].
  intros [sn|]; [|apply pres_ret].
  apply pres_bind.
  { apply pres_modify. intros s H. apply (I_cells s), H. }
  intros _. apply pres_when, pres_onrelease.
Qed.

Lemma pres_settle {env : HookEnv} (i : nat) (r : settlement) : preserved I (settle i r).
Proof.
  unfold settle. apply pres_bind; [intros s H; exact H|].
  intros [[who k]|]; [|apply pres_ret].
  apply pres_bind.
  { apply pres_modify. intros s H. apply (I_cells s), H. }
  intros _. destruct k as [c type|h|c h].
  - destruct r as [fld|e].
    + apply pres_bind; [intros s H; exact H|]. intros h.
      apply pres_bind.
      { apply pres_modify. intros s H. apply (I_cells s), H. }
      intros _. apply pres_finish, pres_request_resume.
    + apply pres_finish, pres_request_resume.
  - apply pres_finish. destruct r; [apply pres_ret | apply pres_throw].
  - apply pres_finish. destruct r; [apply pres_destroy_then | apply pres_throw].
Qed.

Lemma pres_perform {env : HookEnv} (a : action) : preserved I (perform a).
Proof.
  destruct a as [type| | |i r|h e|v|n]; simpl.
  - apply pres_spawn, pres_request.
  - apply pres_spawn, pres_release.
  - apply pres_spawn, pres_destroy.
  - apply pres_settle.
  - apply pres_try_catch; [apply pres_platform_release | intros; apply pres_ret].
  - apply pres_bind.
    { apply pres_modify. intros s H. apply (I_cells s), H. }
    intros _. apply pres_gets_bind. intros s H. apply pres_dispatch, H.
  - apply pres_cells; [reflexivity | intros s; split; reflexivity].
Qed.

Lemma pres_run {env : HookEnv} (l : list action) (s : State) : I s -> I (run l s).
Proof.
  revert s. induction l as [|a l IH]; intros s H; simpl; [exact H|].
  apply IH. apply pres_perform, H.
Qed.

End ReleasedInvariant.

(** ** Calls that only warn *)

Section Warnings.

Context {env : HookEnv}.

Lemma request_unsupported (type : WakeLockType) (s : State) :
  isSupported = false ->
  request type s =
    (Normal Done, with_trace (trace s ++ [warning request_unsupported_text]) s).
Proof. intros Hs. unfold request. rewrite Hs. munfold. reflexivity. Qed.

Lemma release_unsupported (s : State) :
  isSupported = false ->
  release s =
    (Normal Done, with_trace (trace s ++ [warning release_unsupported_text]) s).
Proof. intros Hs. unfold release. rewrite Hs. munfold. reflexivity. Qed.

Lemma destroy_unsupported (s : State) :
  isSupported = false ->
  destroy s =
    (Normal Done, with_trace (trace s ++ [warning destroy_unsupported_text]) s).
Proof. intros Hs. unfold destroy. rewrite Hs. munfold. reflexivity. Qed.

Lemma release_idle (s : State) :
  isSupported = true -> current s = None ->
  release s =
    (Normal Done, with_trace (trace s ++ [warning release_before_request_text]) s).
Proof.
  intros Hs Hc. unfold release. rewrite Hs. destruct s; simpl in Hc; subst.
  munfold. reflexivity.
Qed.

Lemma destroy_idle (s : State) :
  isSupported = true -> current s = None ->
  destroy s =
    (Normal Done, with_trace (trace s ++ [warning destroy_before_request_text]) s).
Proof.
  intros Hs Hc. unfold destroy. rewrite Hs. destruct s; simpl in Hc; subst.
  munfold. reflexivity.
Qed.

(** The first part of each async function never throws, and leaves every
    cell but [pending] and [trace] alone. *)
Lemma request_sync (type : WakeLockType) (s : State) :
  (exists a, fst (request type s) = Normal a) /\ same_cells s (snd (request type s)).
Proof.
  destruct isSupported eqn:Hs.
  - destruct (current s) as [h|] eqn:Hc.
    + rewrite (request_active type s h Hs Hc). split; [eauto|]. repeat split.
    + rewrite (request_idle type s Hs Hc). split; [eauto|]. repeat split.
  - rewrite (request_unsupported type s Hs). split; [eauto|]. repeat split.
Qed.

Lemma release_sync (s : State) :
  (exists a, fst (release s) = Normal a) /\ same_cells s (snd (release s)).
Proof.
  destruct isSupported eqn:Hs.
  - destruct (current s) as [h|] eqn:Hc.
    + rewrite (release_active s h Hs Hc). split; [eauto|]. repeat split.
    + rewrite (release_idle s Hs Hc). split; [eauto|]. repeat split.
  - rewrite (release_unsupported s Hs). split; [eauto|]. repeat split.
Qed.

Lemma destroy_sync (s : State) :
  (exists a, fst (destroy s) = Normal a) /\ same_cells s (snd (destroy s)).
Proof.
  destruct isSupported eqn:Hs.
  - destruct (current s) as [h|] eqn:Hc.
    + rewrite (destroy_active s h Hs Hc). split; [eauto|]. repeat split.
    + rewrite (destroy_idle s Hs Hc). split; [eauto|]. repeat split.
  - rewrite (destroy_unsupported s Hs). split; [eauto|]. repeat split.
Qed.

Lemma spawn_cells (who : Caller) (op : Op) (m : M async) (s : State) :
  same_cells s (snd (m s)) ->
  fst (spawn who op m s) = Normal tt /\ same_cells s (snd (spawn who op m s)).
Proof.
  unfold spawn. destruct (m s) as [[[|k]|e] s']; simpl; intros H; split;
    first [reflexivity | exact H].
Qed.

End Warnings.

(** ** The visibility handler *)

Section Visibility.

Context {env : HookEnv}.

Lemma handler_condition (s : State) :
  truthy (js_and (js_and (JBool (is_visible (visibilityState s))) (current_val s))
                 (current_released s))
  = visible_held_released (visibilityState s) s.
Proof.
  unfold visible_held_released, flag_reads_true, current_val, current_released, js_and.
  destruct (is_visible (visibilityState s)); simpl; [|reflexivity].
  destruct (current s) as [h|]; simpl; [|reflexivity].
  destruct (heap s !! h) as [[ty [[|]|] inst]|]; reflexivity.
Qed.

(** Lines 57-65 call [request()] under the three conditions, and do nothing
    otherwise. *)
Lemma handleVisibilityReturn_eq (s : State) :
  handleVisibilityReturn s =
    if visible_held_released (visibilityState s) s
    then spawn Internal OpRequest (request screen) s
    else (Normal tt, s).
Proof.
  unfold handleVisibilityReturn, bind, gets. rewrite handler_condition.
  destruct (visible_held_released (visibilityState s) s); reflexivity.
Qed.

Lemma handler_cells (s : State) :
  fst (handleVisibilityReturn s) = Normal tt /\
  same_cells s (snd (handleVisibilityReturn s)).
Proof.
  rewrite handleVisibilityReturn_eq.
  destruct (visible_held_released (visibilityState s) s).
  - apply spawn_cells, request_sync.
  - split; [reflexivity | repeat split].
Qed.

Lemma condition_cells (v : DocumentVisibilityState) (s s' : State) :
  same_cells s s' -> visible_held_released v s' = visible_held_released v s.
Proof.
  intros (Hc & _ & Hh & _). unfold visible_held_released, flag_reads_true.
  rewrite Hc, Hh. reflexivity.
Qed.

Lemma handler_acquisitions (s : State) :
  isSupported = true ->
  acquisitions (trace (snd (handleVisibilityReturn s))) =
    acquisitions (trace s) +
    (if visible_held_released (visibilityState s) s then 1 else 0).
Proof.
  intros Hs. rewrite handleVisibilityReturn_eq.
  destruct (visible_held_released (visibilityState s) s) eqn:Hq; simpl; [|lia].
  unfold visible_held_released in Hq.
  destruct (current s) as [h|] eqn:Hc;
    [|rewrite andb_false_r in Hq; discriminate].
  unfold spawn. rewrite (request_active screen s h Hs Hc). simpl.
  unfold acquisitions. rewrite List.filter_app, length_app. reflexivity.
Qed.

End Visibility.

Section VisibilityDispatch.

Context {env : HookEnv}.

Lemma dispatch_acquisitions (ls : list listener) (s : State) :
  isSupported = true ->
  same_cells s (snd (dispatch ls s)) /\
  acquisitions (trace (snd (dispatch ls s))) =
    acquisitions (trace s) +
    count_handler ls * (if visible_held_released (visibilityState s) s then 1 else 0).
Proof.
  intros Hs. revert s. induction ls as [|l ls IH]; intros s; simpl.
  { split; [repeat split | unfold count_handler; simpl; lia]. }
  unfold bind, try_catch. destruct l as [r|n]; simpl.
  - destruct (handler_cells (env := at_render r env) s) as [Hn Hcells].
    pose proof (handler_acquisitions (env := at_render r env) s Hs) as Hacq.
    destruct (handleVisibilityReturn (env := at_render r env) s) as [c s1];
      simpl in *. subst c.
    destruct (IH s1) as [Hcells' Hacq'].
    split.
    + destruct Hcells as (?&?&?&?&?), Hcells' as (?&?&?&?&?).
      repeat split; congruence.
    + rewrite Hacq', Hacq.
      assert (Hv : visibilityState s1 = visibilityState s) by apply Hcells.
      rewrite Hv, (condition_cells _ s s1 Hcells).
      unfold count_handler; simpl. lia.
  - destruct (IH s) as [Hcells' Hacq']. split; [exact Hcells'|].
    rewrite Hacq'. unfold count_handler; simpl. lia.
Qed.

Lemma dispatch_idle (ls : list listener) (s : State) :
  current s = None -> dispatch ls s = (Normal tt, s).
Proof.
  intros Hc. induction ls as [|l ls IH]; simpl; [reflexivity|].
  unfold bind, try_catch. destruct l as [r|n]; simpl.
  - rewrite handleVisibilityReturn_eq. unfold visible_held_released.
    rewrite Hc. simpl. rewrite andb_false_r. simpl. exact IH.
  - exact IH.
Qed.

End VisibilityDispatch.

(** ** Well-formedness of the reachable states *)

Lemma add_listener_NoDup (l : listener) (ls : list listener) :
  NoDup ls -> NoDup (add_listener l ls).
Proof.
  intros H. unfold add_listener. destruct (decide (l ∈ ls)) as [|Hn]; [exact H|].
  apply NoDup_app. split; [exact H|]. split.
  - intros x Hx Hx'. apply list_elem_of_singleton in Hx'. subst. contradiction.
  - apply NoDup_singleton.
Qed.

Lemma add_listener_keeps (l x : listener) (ls : list listener) :
  x ∈ ls -> x ∈ add_listener l ls.
Proof.
  intros H. unfold add_listener. destruct (decide (l ∈ ls)); [exact H|].
  apply elem_of_app. left. exact H.
Qed.

Lemma add_listener_adds (l : listener) (ls : list listener) :
  l ∈ add_listener l ls.
Proof.
  unfold add_listener. destruct (decide (l ∈ ls)) as [H|H]; [exact H|].
  apply elem_of_app. right. apply list_elem_of_singleton. reflexivity.
Qed.

Lemma remove_listener_NoDup (l : listener) (ls : list listener) :
  NoDup ls -> NoDup (remove_listener l ls).
Proof. intros H. unfold remove_listener. apply NoDup_filter, H. Qed.

Lemma remove_listener_removes (l : listener) (ls : list listener) :
  l ∉ remove_listener l ls.
Proof.
  unfold remove_listener. intros H. apply list_elem_of_filter in H.
  destruct H as [H _]. apply H. reflexivity.
Qed.

Lemma remove_listener_keeps (l x : listener) (ls : list listener) :
  x <> l -> x ∈ ls -> x ∈ remove_listener l ls.
Proof.
  intros Hne H. unfold remove_listener. apply list_elem_of_filter. split; assumption.
Qed.

Lemma add_listener_inv (l x : listener) (ls : list listener) :
  x ∈ add_listener l ls -> x = l \/ x ∈ ls.
Proof.
  unfold add_listener. destruct (decide (l ∈ ls)); [tauto|].
  intros H. apply elem_of_app in H. destruct H as [H|H]; [tauto|].
  apply list_elem_of_singleton in H. tauto.
Qed.

Lemma remove_listener_inv (l x : listener) (ls : list listener) :
  x ∈ remove_listener l ls -> x ∈ ls.
Proof. unfold remove_listener. intros H. apply list_elem_of_filter in H. tauto. Qed.

Lemma count_handler_zero (ls : list listener) :
  (forall r, HandleVisibilityReturn r ∉ ls) -> count_handler ls = 0.
Proof.
  unfold count_handler. induction ls as [|x ls IH]; intros H; [reflexivity|].
  simpl. destruct x as [r|n]; simpl.
  - exfalso. apply (H r), list_elem_of_here.
  - apply IH. intros r Hin. apply (H r), list_elem_of_further, Hin.
Qed.

Lemma count_handler_one (ls : list listener) (r0 : nat) :
  NoDup ls -> (forall r, HandleVisibilityReturn r ∈ ls -> r = r0) ->
  HandleVisibilityReturn r0 ∈ ls -> count_handler ls = 1.
Proof.
  unfold count_handler. induction 1 as [|x ls Hx Hnd IH]; intros Hown Hin.
  - apply elem_of_nil in Hin. contradiction.
  - simpl. destruct x as [r|n]; simpl.
    + f_equal. apply count_handler_zero. intros r' Hr'.
      assert (r' = r0) by (apply Hown, list_elem_of_further, Hr').
      assert (r = r0) by (apply Hown, list_elem_of_here).
      subst. contradiction.
    + apply IH.
      * intros r Hr. apply Hown, list_elem_of_further, Hr.
      * apply elem_of_cons in Hin. destruct Hin as [Hin|Hin];
          [discriminate | exact Hin].
Qed.

Lemma finish_eq (who : Caller) (op : Op) (m : M unit) (s : State) :
  finish who op m s =
    (Normal tt,
     with_trace (trace (snd (m s)) ++ [EvSettled who op (promise_of (fst (m s)))])
       (snd (m s))).
Proof. unfold finish. destruct (m s) as [[[]|e] s']; reflexivity. Qed.

Section WellFormed.

Context {env : HookEnv}.

Lemma settle_eq (i : nat) (r : settlement) (s : State) :
  settle i r s =
    match pending s !! i with
    | None => (Normal tt, s)
    | Some (who, k) =>
        let s1 := with_pending (delete i (pending s)) s in
        match k with
        | KRequest c type =>
            match r with
            | Fulfil fld =>
                finish who OpRequest
                  (request_resume (env := at_render c env) (inr (length (heap s))))
                  (with_heap (heap s ++ [mkSentinel type fld false]) s1)
            | RejectWith e =>
                finish who OpRequest (request_resume (env := at_render c env) (inl e)) s1
            end
        | KRelease _ => finish who OpRelease (release_resume r) s1
        | KDestroy c _ => finish who OpDestroy (destroy_resume (env := at_render c env) r) s1
        end
    end.
Proof.
  unfold settle, bind, gets. destruct (pending s !! i) as [[who [c type|h|c h]]|];
    try reflexivity.
  destruct r; reflexivity.
Qed.

Lemma platform_release_cells (h : handle) (e : Event) (s : State) :
  let s' := snd (platform_release h e s) in
  current s' = current s /\ listeners s' = listeners s /\ pending s' = pending s.
Proof.
  unfold platform_release, bind, gets, modify. simpl.
  destruct (heap s !! h) as [sn|]; [|repeat split].
  destruct (sn_onrelease sn); simpl; [|repeat split].
  rewrite onrelease_eq. repeat split.
Qed.

(** What the first part of each async function adds to [pending]. *)
Lemma spawn_request_pending (who : Caller) (type : WakeLockType) (s : State)
    (x : Caller * cont) :
  x ∈ pending (snd (spawn who OpRequest (request type) s)) ->
  x ∈ pending s \/ x = (who, KRequest render type)
  \/ exists h, x = (Internal, KDestroy (destroy_of render) h).
Proof.
  unfold spawn. destruct isSupported eqn:Hs.
  - destruct (current s) as [h|] eqn:Hc.
    + rewrite (request_active type s h Hs Hc). simpl. intros H.
      apply elem_of_app in H. destruct H as [H|H].
      * apply elem_of_app in H. destruct H as [H|H]; [tauto|].
        apply list_elem_of_singleton in H. right. right. eauto.
      * apply list_elem_of_singleton in H. tauto.
    + rewrite (request_idle type s Hs Hc). simpl. intros H.
      apply elem_of_app in H. destruct H as [H|H]; [tauto|].
      apply list_elem_of_singleton in H. tauto.
  - rewrite (request_unsupported type s Hs). simpl. tauto.
Qed.

Lemma spawn_release_pending (who : Caller) (s : State) (x : Caller * cont) :
  x ∈ pending (snd (spawn who OpRelease release s)) ->
  x ∈ pending s \/ exists h, x = (who, KRelease h).
Proof.
  unfold spawn. destruct isSupported eqn:Hs.
  - destruct (current s) as [h|] eqn:Hc.
    + rewrite (release_active s h Hs Hc). simpl. intros H.
      apply elem_of_app in H. destruct H as [H|H]; [tauto|].
      apply list_elem_of_singleton in H. eauto.
    + rewrite (release_idle s Hs Hc). simpl. tauto.
  - rewrite (release_unsupported s Hs). simpl. tauto.
Qed.

Lemma spawn_destroy_pending (who : Caller) (s : State) (x : Caller * cont) :
  x ∈ pending (snd (spawn who OpDestroy destroy s)) ->
  x ∈ pending s \/ exists h, x = (who, KDestroy render h).
Proof.
  unfold spawn. destruct isSupported eqn:Hs.
  - destruct (current s) as [h|] eqn:Hc.
    + rewrite (destroy_active s h Hs Hc). simpl. intros H.
      apply elem_of_app in H. destruct H as [H|H]; [tauto|].
      apply list_elem_of_singleton in H. eauto.
    + rewrite (destroy_idle s Hs Hc). simpl. tauto.
  - rewrite (destroy_unsupported s Hs). simpl. tauto.
Qed.

End WellFormed.

Section WellFormedRun.

Context {env : HookEnv}.

(** What a dispatch adds to [pending]: the suspended [request] of each
    handler that ran, and the [destroy] that this [request] started. *)
Lemma dispatch_pending (ls : list listener) (s : State) (x : Caller * cont) :
  x ∈ pending (snd (dispatch ls s)) ->
  x ∈ pending s
  \/ exists r, HandleVisibilityReturn r ∈ ls
               /\ (x = (Internal, KRequest r screen)
                   \/ exists h, x = (Internal, KDestroy (destroy_of r) h)).
Proof.
  revert s. induction ls as [|l ls IH]; intros s; simpl; [tauto|].
  unfold bind, try_catch. destruct l as [r|n]; simpl.
  - pose proof (handleVisibilityReturn_eq (env := at_render r env) s) as Heq.
    pose proof (spawn_request_pending (env := at_render r env) Internal screen s x) as Hsp.
    destruct (handleVisibilityReturn (env := at_render r env) s) as [c s1] eqn:Hh.
    assert (Hs1 : x ∈ pending s1 ->
                  x ∈ pending s \/ x = (Internal, KRequest r screen)
                  \/ exists h, x = (Internal, KDestroy (destroy_of r) h)).
    { destruct (visible_held_released (visibilityState s) s).
      - rewrite <- Heq in Hsp. exact Hsp.
      - injection Heq as _ <-. tauto. }
    assert (Hrest : x ∈ pending (snd (dispatch ls s1)) ->
                    x ∈ pending s
                    \/ exists r0, HandleVisibilityReturn r0 ∈ HandleVisibilityReturn r :: ls
                                  /\ (x = (Internal, KRequest r0 screen)
                                      \/ exists h, x = (Internal, KDestroy (destroy_of r0) h))).
    { intros H. destruct (IH s1 H) as [H1|(r0 & Hr0 & H1)].
      - destruct (Hs1 H1) as [H2|H2]; [tauto|].
        right. exists r. split; [apply list_elem_of_here | exact H2].
      - right. exists r0. split; [apply list_elem_of_further, Hr0 | exact H1]. }
    destruct c; exact Hrest.
  - intros H. destruct (IH s H) as [H1|(r0 & Hr0 & H1)]; [tauto|].
    right. exists r0. split; [apply list_elem_of_further, Hr0 | exact H1].
Qed.

Lemma dispatch_cells (ls : list listener) (s : State) :
  same_cells s (snd (dispatch ls s)).
Proof.
  revert s. induction ls as [|l ls IH]; intros s; simpl; [repeat split|].
  unfold bind, try_catch. destruct l as [r|n]; simpl; [|apply IH].
  destruct (handler_cells (env := at_render r env) s) as [Hn Hcells].
  destruct (handleVisibilityReturn (env := at_render r env) s) as [c s1];
    simpl in *. subst c.
  destruct Hcells as (?&?&?&?&?), (IH s1) as (?&?&?&?&?).
  repeat split; congruence.
Qed.

Lemma well_formed_initial : well_formed initial.
Proof.
  split; [apply NoDup_nil_2|]. split; [intros H; contradiction|].
  split; [intros _; split; reflexivity|].
  split.
  - intros r H. apply elem_of_nil in H. contradiction.
  - intros who k H. apply elem_of_nil in H. contradiction.
Qed.

(** A step that leaves the reference and the listeners alone, and whose new
    suspended functions are closures of this render. *)
Lemma well_formed_frame (s s' : State) :
  current s' = current s -> listeners s' = listeners s ->
  (isSupported = false -> pending s' = pending s) ->
  (forall who k, (who, k) ∈ pending s' -> (who, k) ∈ pending s \/ own_cont k) ->
  well_formed s -> well_formed s'.
Proof.
  intros Hc Hl Hp Hq (Hnd & Hin & Hun & Hls & Hps). unfold well_formed, own_scope.
  rewrite Hc, Hl. split; [exact Hnd|]. split; [exact Hin|].
  split; [intros Hs; rewrite (Hp Hs); exact (Hun Hs)|].
  split; [exact Hls|].
  intros who k H. destruct (Hq who k H) as [H1|H1]; [exact (Hps who k H1) | exact H1].
Qed.

Lemma well_formed_settle (i : nat) (r : settlement) (s : State) :
  well_formed s -> well_formed (snd (settle i r s)).
Proof.
  intros Hwf. rewrite settle_eq.
  destruct (pending s !! i) as [[who k]|] eqn:Hi; [|exact Hwf].
  destruct Hwf as (Hnd & Hin & Hun & Hls & Hps).
  assert (Hs : isSupported = true).
  { destruct isSupported; [reflexivity|]. destruct (Hun eq_refl) as [_ Hp].
    rewrite Hp in Hi. discriminate. }
  assert (Hfalse : forall P : Prop, isSupported = false -> P).
  { intros P H. rewrite Hs in H. discriminate. }
  assert (Hown : own_cont k).
  { apply (Hps who). apply list_elem_of_lookup. eauto. }
  assert (Hdel : forall who' k', (who', k') ∈ delete i (pending s) -> own_cont k').
  { intros who' k' H. apply (Hps who'). eapply list_elem_of_delete_inv, H. }
  destruct k as [c type|h|c h]; simpl in Hown |- *.
  - subst c. rewrite at_render_self.
    destruct r as [fld|e]; rewrite finish_eq.
    + rewrite request_resume_resolved.
      destruct (onRequest options) as [[x|]|]; simpl;
        (split; [apply add_listener_NoDup, Hnd|];
         split; [intros _; apply add_listener_adds|];
         split; [apply Hfalse|];
         split; [|exact Hdel];
         intros r0 Hr0; apply add_listener_inv in Hr0;
         destruct Hr0 as [Hr0|Hr0]; [congruence | exact (Hls r0 Hr0)]).
    + rewrite request_resume_rejected. simpl.
      split; [exact Hnd|]. split; [exact Hin|]. split; [apply Hfalse|].
      split; [exact Hls | exact Hdel].
  - rewrite finish_eq. destruct r; simpl;
      (split; [exact Hnd|]; split; [exact Hin|]; split; [apply Hfalse|];
       split; [exact Hls | exact Hdel]).
  - rewrite finish_eq. destruct r; simpl.
    + rewrite destroy_then_eq. simpl.
      split; [apply remove_listener_NoDup, Hnd|].
      split; [intros H; contradiction|]. split; [apply Hfalse|].
      split; [|exact Hdel].
      intros r0 Hr0. apply remove_listener_inv in Hr0. exact (Hls r0 Hr0).
    + split; [exact Hnd|]. split; [exact Hin|]. split; [apply Hfalse|].
      split; [exact Hls | exact Hdel].
Qed.

Lemma well_formed_exec (a : action) (s : State) :
  well_formed s -> well_formed (exec a s).
Proof.
  intros Hwf. unfold exec. destruct a as [type| | |i r|h e|v|n]; simpl.
  - destruct (spawn_cells Public OpRequest (request type) s (proj2 (request_sync type s)))
      as [_ (Hc & _ & _ & Hl & _)].
    apply (well_formed_frame s); [exact Hc | exact Hl | | | exact Hwf].
    + intros Hs. unfold spawn. rewrite (request_unsupported type s Hs). reflexivity.
    + intros who k H. apply spawn_request_pending in H.
      destruct H as [H|[H|[h H]]]; [tauto| |]; injection H as -> ->; right;
        reflexivity.
    - destruct (spawn_cells Public OpRelease release s (proj2 (release_sync s)))
        as [_ (Hc & _ & _ & Hl & _)].
      apply (well_formed_frame s); [exact Hc | exact Hl | | | exact Hwf].
      + intros Hs. unfold spawn. rewrite (release_unsupported s Hs). reflexivity.
      + intros who k H. apply spawn_release_pending in H.
        destruct H as [H|[h H]]; [tauto|]. injection H as -> ->. right. exact I.
    - set (env' := at_render (destroy_of render) env).
      destruct (spawn_cells Public OpDestroy (destroy (env := env')) s
                  (proj2 (destroy_sync (env := env') s)))
        as [_ (Hc & _ & _ & Hl & _)].
      apply (well_formed_frame s); [exact Hc | exact Hl | | | exact Hwf].
      + intros Hs. unfold spawn.
        rewrite (destroy_unsupported (env := env') s Hs). reflexivity.
      + intros who k H. apply (spawn_destroy_pending (env := env')) in H.
        destruct H as [H|[h H]]; [tauto|]. injection H as -> ->. right. reflexivity.
    - apply well_formed_settle, Hwf.
    - unfold try_catch.
      destruct (platform_release_cells h e s) as (Hc & Hl & Hp).
      destruct (platform_release h e s) as [[[]|x] s']; simpl in *;
        (apply (well_formed_frame s);
         [exact Hc | exact Hl | intros _; exact Hp
         | intros who k H; rewrite Hp in H; tauto | exact Hwf]).
    - unfold bind, modify, gets. simpl.
      destruct (dispatch_cells (listeners s) (with_visibility v s))
        as (Hc & _ & _ & Hl & _).
      apply (well_formed_frame s); [exact Hc | exact Hl | | | exact Hwf].
      + intros Hs. destruct Hwf as (_ & _ & Hun & _). destruct (Hun Hs) as [Hc0 _].
        rewrite dispatch_idle by exact Hc0. reflexivity.
      + intros who k H. apply dispatch_pending in H.
        destruct Hwf as (_ & _ & _ & Hls & _).
        destruct H as [H|(r & Hr & [H|[h H]])]; [tauto| |];
          injection H as -> ->; right; simpl; rewrite (Hls r Hr); reflexivity.
    - unfold addEventListener, bind, emit, modify. simpl.
      destruct Hwf as (Hnd & Hin & Hun & Hls & Hps).
      split; [apply add_listener_NoDup, Hnd|].
      split; [intros H; apply add_listener_keeps, Hin, H|].
      split; [exact Hun|]. split; [|exact Hps].
      intros r Hr. apply add_listener_inv in Hr.
      destruct Hr as [Hr|Hr]; [discriminate | exact (Hls r Hr)].
Qed.

Lemma well_formed_run (l : list action) (s : State) :
  well_formed s -> well_formed (run l s).
Proof.
  revert s. induction l as [|a l IH]; intros s H; simpl; [exact H|].
  apply IH, well_formed_exec, H.
Qed.

End WellFormedRun.

(** ** Scenarios *)

(** A successful [request("screen")]: the sentinel is referenced,
    [released] is false, [onRequest] ran once and [onError] did not. *)
Example request_succeeds :
  current held = Some 0
  /\ released held = JBool false
  /\ trace held = [EvAcquire screen; EvSetCurrent (Some 0); EvSetOnrelease 0;
                   EvAddListener (HandleVisibilityReturn 0); EvOnRequest;
                   EvSetReleased (JBool false); EvSettled Public OpRequest Fulfilled].
Proof. vm_compute. repeat split. Qed.

(** Without the capability the three operations only warn. *)
Example unsupported_calls_warn :
  run (env := unsupported no_callbacks) [ARequest screen; ARelease; ADestroy] initial
  = with_trace [warning request_unsupported_text; EvSettled Public OpRequest Fulfilled;
                warning release_unsupported_text; EvSettled Public OpRelease Fulfilled;
                warning destroy_unsupported_text; EvSettled Public OpDestroy Fulfilled]
      initial.
Proof. reflexivity. Qed.

(** [release] and [destroy] before any [request] only warn. *)
Example calls_before_request_warn :
  run (env := supported no_callbacks) [ARelease; ADestroy] initial
  = with_trace [warning release_before_request_text; EvSettled Public OpRelease Fulfilled;
                warning destroy_before_request_text; EvSettled Public OpDestroy Fulfilled]
      initial.
Proof. reflexivity. Qed.

(** The platform releases the held lock while the page is hidden; on the
    return to visible the handler asks for the lock again. *)
Example hidden_release_then_return :
  let s := run (env := supported all_callbacks)
               [AVisibilityChange hidden; APlatformRelease 0 3; AVisibilityChange visible]
               held in
  released s = JBool true
  /\ pending s = [(Internal, KDestroy 0 0); (Internal, KRequest 0 screen)]
  /\ acquisitions (trace s) = 2.
Proof. vm_compute. repeat split. Qed.

(** * The claims *)

(** ** Superseding request *)

(** C1.  A [request] made while sentinel 0 is held does not wait for the
    teardown of that sentinel: its synchronous part calls the sentinel's
    [release()] and then at once [navigator.wakeLock.request], while the
    reference is still stored, the listener still registered and the [then]
    callback of [destroy] still pending (line 34 calls [destroy()] without
    awaiting it).  When the new acquisition resolves before the old
    sentinel's [release()] promise, the late teardown clears the reference to
    the new sentinel and unregisters the listener: no handle is referenced
    afterwards although sentinel 1 was acquired and never released.  When
    the old sentinel's promise resolves first, sentinel 1 ends up referenced
    with the listener registered. *)
Theorem request_while_held_acquires_before_teardown :
  let s := exec (env := supported all_callbacks) (ARequest screen) held in
  (trace s = trace held ++ [EvSentinelRelease 0; EvAcquire screen]
   /\ current s = Some 0
   /\ listeners s = [HandleVisibilityReturn 0]
   /\ pending s = [(Internal, KDestroy 0 0); (Public, KRequest 0 screen)])
  /\
  (let s' := run (env := supported all_callbacks) request_twice_acquire_first initial in
   current s' = None
   /\ listeners s' = []
   /\ pending s' = []
   /\ heap s' !! 1 = Some (mkSentinel screen (Some false) true))
  /\
  (let s' := run (env := supported all_callbacks) request_twice_release_first initial in
   current s' = Some 1
   /\ listeners s' = [HandleVisibilityReturn 0]
   /\ pending s' = []).
Proof. vm_compute. repeat split. Qed.

(** ** The release callback *)

(** C2, as the code has it.  Every firing of the closure stored in
    [sentinel.onrelease] calls [setReleased(true)], whatever the [released]
    field of the referenced sentinel reads (true, false, undefined, or no
    sentinel at all), and then calls [onRelease], if there is one, with the
    event. *)
Theorem release_callback_always_sets_true {env : HookEnv} (e : Event) (s : State) :
  let s' := snd (onrelease e s) in
  released s' = JBool true
  /\ trace s' = (trace s ++ [EvSetReleased (JBool true)]
                         ++ match onRelease options with
                            | Some _ => [EvOnRelease e]
                            | None => []
                            end)
  /\ current s' = current s /\ heap s' = heap s /\ listeners s' = listeners s.
Proof. simpl. rewrite onrelease_eq. simpl. repeat split. Qed.

(** C2 as stated fails: with the [released] field of the referenced
    sentinel reading false, the callback stores true, not false.  First with
    the callback run on the state where sentinel 0 is held; then in a
    schedule of the event loop: sentinel 0 is released by the platform while
    [wakeLock.current] already refers to sentinel 1. *)
Lemma release_callback_collapses_false :
  (current_released held = JBool false
   /\ released (snd (onrelease (env := supported all_callbacks) 9 held)) = JBool true)
  /\
  (current superseding = Some 1
   /\ current_released superseding = JBool false
   /\ released (exec (env := supported all_callbacks) (APlatformRelease 0 9) superseding)
      = JBool true).
Proof. vm_compute. repeat split. Qed.

(** ** Failures *)

(** C3, as the code has it.  The synchronous part of [request], [release]
    and [destroy] never throws, and without the capability each of them only
    logs its warning.  [request]'s promise rejects only with what
    [onError] itself throws: a rejected acquisition, or a throw of
    [onRequest], goes to [onError].  A rejection of the sentinel's
    [release()] is not caught: the promise of [release] and of [destroy]
    rejects with it; [destroy]'s promise also rejects when [onDestroy]
    throws. *)
Theorem failures_absorbed_except_release {env : HookEnv} (s : State) :
  ((forall type, exists a, fst (request type s) = Normal a)
   /\ (exists a, fst (release s) = Normal a)
   /\ (exists a, fst (destroy s) = Normal a))
  /\ (isSupported = true \/
      ((forall type, request type s
          = (Normal Done, with_trace (trace s ++ [warning request_unsupported_text]) s))
       /\ release s
          = (Normal Done, with_trace (trace s ++ [warning release_unsupported_text]) s)
       /\ destroy s
          = (Normal Done, with_trace (trace s ++ [warning destroy_unsupported_text]) s)))
  /\ (forall e, fst (request_resume (inl e) s)
                = outcome_of (onError options) (fun f => f e))
  /\ (forall h, fst (request_resume (inr h) s)
                = match onRequest options with
                  | Some (Some x) => outcome_of (onError options) (fun f => f x)
                  | _ => Normal tt
                  end)
  /\ (forall r, promise_of (fst (release_resume r s))
                = match r with
                  | Fulfil _ => Fulfilled
                  | RejectWith e => Rejected e
                  end)
  /\ (forall r, promise_of (fst (destroy_resume r s))
                = match r with
                  | Fulfil _ => promise_of (outcome_of (onDestroy options) (fun f => f))
                  | RejectWith e => Rejected e
                  end).
Proof.
  split; [|split; [|split; [|split; [|split]]]].
  - split; [intros type; apply request_sync|].
    split; [apply release_sync | apply destroy_sync].
  - destruct isSupported eqn:Hs; [left; reflexivity | right].
    split; [intros type; apply request_unsupported, Hs|].
    split; [apply release_unsupported, Hs | apply destroy_unsupported, Hs].
  - intros e. rewrite request_resume_rejected. reflexivity.
  - intros h. rewrite request_resume_resolved.
    destruct (onRequest options) as [[x|]|]; reflexivity.
  - intros [fld|e]; reflexivity.
  - intros [fld|e]; [|reflexivity]. simpl. rewrite destroy_then_eq. reflexivity.
Qed.

(** C3 as stated fails: [release()] on a held sentinel whose own
    [release()] rejects with 7 hands the application a promise that rejects
    with 7. *)
Lemma rejected_release_reaches_caller :
  let s := run (env := supported all_callbacks) rejected_release initial in
  trace s = trace held ++ [EvSentinelRelease 0; EvSettled Public OpRelease (Rejected 7)].
Proof. vm_compute. reflexivity. Qed.

(** ** The unknown status *)




(** ** Re-acquisition on visibility change *)

Lemma visible_held_released_true (v : DocumentVisibilityState) (s : State) :
  visible_held_released v s = true <->
  v = visible /\
  exists h sn, current s = Some h /\ heap s !! h = Some sn /\ sn_released sn = Some true.
Proof.
  unfold visible_held_released, flag_reads_true. split.
  - intros H. destruct v; simpl in H; [|discriminate]. split; [reflexivity|].
    destruct (current s) as [h|]; simpl in H; [|discriminate].
    destruct (heap s !! h) as [sn|] eqn:Hh; [|discriminate].
    destruct (sn_released sn) as [[|]|] eqn:E; try discriminate.
    exists h, sn. split; [reflexivity|]. split; [exact Hh | exact E].
  - intros (-> & h & sn & -> & Hh & Hr). simpl. rewrite Hh, Hr. reflexivity.
Qed.

(** As long as every [request] is the closure of one render, a visibility
    change to [v] makes one more call of [navigator.wakeLock.request] if the
    document is now visible, a sentinel is referenced and its [released]
    field reads true, and makes none otherwise.  Each handler calls
    [request] with the default type, "screen". *)
Lemma one_request_closure_reacquires_once
  {env : HookEnv} (l : list action) (v : DocumentVisibilityState) :
  let s := run l initial in
  acquisitions (trace (exec (AVisibilityChange v) s))
  = acquisitions (trace s) + (if visible_held_released v s then 1 else 0)
  /\ (visible_held_released v s = true <->
      v = visible /\
      exists h sn, current s = Some h /\ heap s !! h = Some sn
                   /\ sn_released sn = Some true)
  /\ (forall s0, handleVisibilityReturn s0 =
                 if visible_held_released (visibilityState s0) s0
                 then spawn Internal OpRequest (request screen) s0
                 else (Normal tt, s0)).
Proof.
  intros s. split; [|split; [apply visible_held_released_true
                            | apply handleVisibilityReturn_eq]].
  assert (Hwf : well_formed s) by apply well_formed_run, well_formed_initial.
  destruct Hwf as (Hnd & Hin & Hun & Hls & _).
  unfold exec. simpl. unfold bind, modify, gets. simpl.
  destruct isSupported eqn:Hs.
  - destruct (dispatch_acquisitions (listeners s) (with_visibility v s) Hs) as [_ Hacq].
    rewrite Hacq. simpl. f_equal.
    change (visible_held_released v (with_visibility v s))
      with (visible_held_released v s).
    destruct (visible_held_released v s) eqn:Hq; [|lia].
    rewrite (count_handler_one _ render); [reflexivity | exact Hnd | exact Hls |].
    apply Hin. apply visible_held_released_true in Hq.
    destruct Hq as (_ & h & sn & Hc & _). rewrite Hc. discriminate.
  - destruct (Hun eq_refl) as [Hc _]. rewrite dispatch_idle by exact Hc. simpl.
    unfold visible_held_released. rewrite Hc. simpl. rewrite andb_false_r. simpl. lia.
Qed.


(** ** destroy and release *)

(** With the capability present and sentinel [h] referenced, [destroy]
    calls the sentinel's [release()] and suspends, touching nothing else.
    When that promise is fulfilled, in whatever state [s'] the hook then is,
    the continuation unregisters the handler of the render that created
    this [destroy], then clears [wakeLock.current], then calls [onDestroy]
    once if there is one, and does nothing else. *)
Lemma destroy_tears_down_own_handler {env : HookEnv} (s : State) (h : handle) :
  isSupported = true -> current s = Some h ->
  destroy s = (Normal (Await (KDestroy render h)),
               with_trace (trace s ++ [EvSentinelRelease h]) s)
  /\ (forall s' fld,
       let s'' := snd (destroy_resume (Fulfil fld) s') in
       trace s'' = (trace s' ++ [EvRemoveListener (HandleVisibilityReturn render);
                                 EvSetCurrent None]
                             ++ match onDestroy options with
                                | Some _ => [EvOnDestroy]
                                | None => []
                                end)
       /\ current s'' = None
       /\ (HandleVisibilityReturn render ∉ listeners s'')
       /\ (forall l, l <> HandleVisibilityReturn render ->
                     l ∈ listeners s' -> l ∈ listeners s'')
       /\ released s'' = released s' /\ heap s'' = heap s' /\ pending s'' = pending s').
Proof.
  intros Hs Hc. split; [apply destroy_active; assumption|].
  intros s' fld. simpl. rewrite destroy_then_eq. simpl.
  split; [reflexivity|]. split; [reflexivity|].
  split; [apply remove_listener_removes|].
  split; [|repeat split].
  intros l Hne Hl. apply remove_listener_keeps; assumption.
Qed.

(** C6.  With inline option callbacks the teardown does not unregister
    the visibility subscription.  Render 0 requests the lock and registers
    its [handleVisibilityReturn]; the application then calls the [destroy]
    that render 1 returned.  The sentinel is released, [removeEventListener]
    is called with the function of render 1, which was never registered,
    the reference is cleared and [onDestroy] is called: the handler that
    [request] registered is still registered after the teardown. *)
Theorem destroy_of_later_render_leaves_handler :
  listeners inline_held = [HandleVisibilityReturn 0]
  /\ current inline_held = Some 0
  /\ trace inline_destroyed
     = trace inline_held
       ++ [EvSentinelRelease 0; EvSetReleased (JBool true); EvOnRelease 3;
           EvRemoveListener (HandleVisibilityReturn 1); EvSetCurrent None;
           EvOnDestroy; EvSettled Public OpDestroy Fulfilled]
  /\ current inline_destroyed = None
  /\ listeners inline_destroyed = [HandleVisibilityReturn 0].
Proof. vm_compute. repeat split. Qed.

(** C7.  With the capability present and sentinel [h] referenced,
    [release] calls the sentinel's [release()] and awaits it; that call is
    its only effect.  Neither part writes a cell of the hook: the reference
    stays, the listener stays registered, [onDestroy] is not called. *)
Theorem release_only_releases {env : HookEnv} (s : State) (h : handle) :
  isSupported = true -> current s = Some h ->
  release s = (Normal (Await (KRelease h)),
               with_trace (trace s ++ [EvSentinelRelease h]) s)
  /\ (forall s' fld, release_resume (Fulfil fld) s' = (Normal tt, s'))
  /\ let s1 := exec ARelease s in
     let s2 := exec (ASettle (length (pending s)) (Fulfil None)) s1 in
     current s2 = Some h /\ listeners s2 = listeners s /\ released s2 = released s
     /\ heap s2 = heap s /\ pending s2 = pending s
     /\ trace s2 = trace s ++ [EvSentinelRelease h; EvSettled Public OpRelease Fulfilled].
Proof.
  intros Hs Hc. split; [apply release_active; assumption|].
  split; [reflexivity|].
  unfold exec. simpl. unfold spawn. rewrite (release_active s h Hs Hc). simpl.
  rewrite settle_eq. simpl. rewrite list_lookup_middle by reflexivity. simpl.
  rewrite delete_middle, app_nil_r. unfold with_trace, with_pending; simpl.
  rewrite <- app_assoc. simpl. repeat split. exact Hc.
Qed.

Lemma release_only_releases_witness :
  release (env := supported all_callbacks) held
  = (Normal (Await (KRelease 0)), with_trace (trace held ++ [EvSentinelRelease 0]) held).
Proof.
  exact (proj1 (release_only_releases (env := supported all_callbacks)
                  held 0 eq_refl eq_refl)).
Defined.

(** ** Failing acquisitions *)

(** C8.  With the capability present and no sentinel referenced, a
    [request] whose acquisition is rejected with [e] calls
    [navigator.wakeLock.request], then [onError], if there is one, once with
    [e], and that is all: the reference is still empty and [released] is
    what it was.  In whatever state the rejection arrives, the continuation
    only adds the call of [onError] to the trace. *)
Theorem refused_acquisition_only_reports
  {env : HookEnv} (type : WakeLockType) (e : Error) (s : State) :
  isSupported = true -> current s = None ->
  let s' := run [ARequest type; ASettle (length (pending s)) (RejectWith e)] s in
  trace s' = (trace s ++ [EvAcquire type]
                      ++ match onError options with
                         | Some _ => [EvOnError e]
                         | None => []
                         end
                      ++ [EvSettled Public OpRequest
                            (promise_of (outcome_of (onError options) (fun f => f e)))])
  /\ current s' = None /\ released s' = released s
  /\ heap s' = heap s /\ listeners s' = listeners s /\ pending s' = pending s
  /\ forall s0, snd (request_resume (inl e) s0)
                = with_trace (trace s0 ++ match onError options with
                                          | Some _ => [EvOnError e]
                                          | None => []
                                          end) s0.
Proof.
  intros Hs Hc. simpl. unfold exec. simpl. unfold spawn.
  rewrite (request_idle type s Hs Hc). simpl.
  rewrite settle_eq. simpl. rewrite list_lookup_middle by reflexivity. simpl.
  rewrite delete_middle, app_nil_r, finish_eq, request_resume_rejected. simpl.
  split; [|split; [exact Hc|]].
  - rewrite <- !app_assoc. reflexivity.
  - repeat split. intros s0. rewrite request_resume_rejected. reflexivity.
Qed.

Lemma refused_acquisition_only_reports_witness :
  let s' := run (env := supported all_callbacks) refused_request initial in
  current s' = None /\ released s' = JUndefined.
Proof.
  destruct (refused_acquisition_only_reports (env := supported all_callbacks)
              screen 7 initial eq_refl eq_refl) as (_ & Hc & Hr & _).
  split; [exact Hc | exact Hr].
Defined.

(** C9.  When the acquisition resolves with sentinel [h] and [onRequest]
    throws [x], the reference to [h] has been stored, the release closure
    installed and the listener registered before the throw; the catch block
    calls [onError], if there is one, with [x]; line 49 is skipped, so
    [setReleased] is not called and [released] is what it was. *)
Theorem onRequest_throw_skips_released
  {env : HookEnv} (h : handle) (x : Error) (s : State) :
  onRequest options = Some (Some x) ->
  let s' := snd (request_resume (inr h) s) in
  trace s' = (trace s ++ [EvSetCurrent (Some h); EvSetOnrelease h;
                          EvAddListener (HandleVisibilityReturn render); EvOnRequest]
                      ++ match onError options with
                         | Some _ => [EvOnError x]
                         | None => []
                         end)
  /\ current s' = Some h
  /\ released s' = released s
  /\ (HandleVisibilityReturn render ∈ listeners s')
  /\ heap s' = alter install h (heap s)
  /\ fst (request_resume (inr h) s) = outcome_of (onError options) (fun f => f x).
Proof.
  intros Hx. simpl. rewrite request_resume_resolved, Hx. simpl.
  split; [rewrite <- !app_assoc; reflexivity|].
  split; [reflexivity|]. split; [reflexivity|].
  split; [apply add_listener_adds|]. split; reflexivity.
Qed.

Lemma onRequest_throw_skips_released_witness :
  let s' := snd (request_resume (env := supported onRequest_throws) (inr 0) granted) in
  current s' = Some 0 /\ released s' = JUndefined /\ In (EvOnError 42) (trace s').
Proof.
  destruct (onRequest_throw_skips_released (env := supported onRequest_throws)
              0 42 granted eq_refl) as (Ht & Hc & Hr & _).
  cbv zeta. split; [exact Hc|]. split; [exact Hr|].
  refine (eq_ind_r (In (EvOnError 42)) _ Ht).
  apply in_or_app. right. vm_compute. tauto.
Defined.

(** ** Definedness of released *)

(** C10.  Once [released] is not undefined, no turn of the event loop (no
    call of the application, no platform promise settling, no release
    event, no visibility change) makes it undefined again; and every value
    ever passed to [setReleased] is a boolean. *)
Theorem released_never_undefined_again {env : HookEnv} (l : list action) (s : State) :
  released s <> JUndefined ->
  released (run l s) <> JUndefined
  /\ forall l' v, In (EvSetReleased v) (trace (run l' initial)) -> exists b, v = JBool b.
Proof.
  intros H. split.
  - apply (pres_run (fun s => released s <> JUndefined)).
    + intros s0 c hp ls v p H0. exact H0.
    + intros s0 e _ H0. exact H0.
    + intros s0 b _. simpl. discriminate.
    + exact H.
  - intros l'.
    apply (pres_run (fun s => forall v, In (EvSetReleased v) (trace s) -> exists b, v = JBool b)).
    + intros s0 c hp ls v p H0. exact H0.
    + intros s0 e He H0 v Hv. simpl in Hv. apply in_app_or in Hv.
      destruct Hv as [Hv|[Hv|[]]]; [apply H0, Hv|]. subst e. discriminate.
    + intros s0 b H0 v Hv. simpl in Hv. apply in_app_or in Hv.
      destruct Hv as [Hv|[Hv|[]]]; [apply H0, Hv|]. inversion Hv. eauto.
    + simpl. intros v [].
Qed.

Lemma released_never_undefined_again_witness :
  released (run (env := supported all_callbacks) eventful held) <> JUndefined.
Proof.
  apply (released_never_undefined_again (env := supported all_callbacks) eventful held).
  vm_compute. discriminate.
Defined.

(** * Further properties of the hook *)

(** ** Auxiliary facts *)

Lemma run_app {env : HookEnv} (l1 l2 : list action) (s : State) :
  run (l1 ++ l2) s = run l2 (run l1 s).
Proof. unfold run. apply foldl_app. Qed.

Lemma acquisitions_app (t1 t2 : list effect) :
  acquisitions (t1 ++ t2) = acquisitions t1 + acquisitions t2.
Proof. unfold acquisitions. rewrite List.filter_app, length_app. reflexivity. Qed.

Section Dispatch.

Context {env : HookEnv}.

(** A dispatch in which the handler's conditions do not hold leaves the
    state as it is. *)
Lemma dispatch_unqualified (ls : list listener) (s : State) :
  visible_held_released (visibilityState s) s = false ->
  dispatch ls s = (Normal tt, s).
Proof.
  intros Hq. induction ls as [|l ls IH]; simpl; [reflexivity|].
  unfold bind, try_catch. destruct l as [r|n]; simpl; [|exact IH].
  rewrite handleVisibilityReturn_eq, Hq. exact IH.
Qed.

Lemma dispatch_foreign (ls : list listener) (s : State) :
  (forall r, HandleVisibilityReturn r ∉ ls) -> dispatch ls s = (Normal tt, s).
Proof.
  induction ls as [|l ls IH]; intros H; simpl; [reflexivity|].
  unfold bind, try_catch. destruct l as [r|n]; simpl.
  - exfalso. apply (H r), list_elem_of_here.
  - apply IH. intros r Hin. apply (H r), list_elem_of_further, Hin.
Qed.

(** With the handler of render [r0] registered once and no other, a
    dispatch is one run of it. *)
Lemma dispatch_once (ls : list listener) (r0 : nat) (s : State) :
  NoDup ls -> (forall r, HandleVisibilityReturn r ∈ ls -> r = r0) ->
  HandleVisibilityReturn r0 ∈ ls ->
  snd (dispatch ls s) = snd (handleVisibilityReturn (env := at_render r0 env) s).
Proof.
  induction 1 as [|l ls Hl Hnd IH]; intros Hown Hin.
  - apply elem_of_nil in Hin. contradiction.
  - simpl. unfold bind, try_catch. destruct l as [r|n]; simpl.
    + assert (r = r0) by (apply Hown, list_elem_of_here). subst r.
      assert (Hnone : forall r, HandleVisibilityReturn r ∉ ls).
      { intros r Hr. assert (r = r0) by (apply Hown, list_elem_of_further, Hr).
        subst r. contradiction. }
      destruct (handleVisibilityReturn (env := at_render r0 env) s) as [[[]|x] s1];
        simpl; rewrite (dispatch_foreign ls s1 Hnone); reflexivity.
    + apply IH.
      * intros r Hr. apply Hown, list_elem_of_further, Hr.
      * apply elem_of_cons in Hin.
        destruct Hin as [Hin|Hin]; [discriminate | exact Hin].
Qed.

End Dispatch.

(** ** Without the capability *)

Lemma inert_exec {env : HookEnv} (a : action) (s : State) :
  isSupported = false -> inert s -> inert (exec a s).
Proof.
  intros Hs (Hc & Hr & Hh & Hp & Hl & Ht). unfold exec, inert.
  destruct a as [type| | |i r|h e|v|n]; simpl.
  - unfold spawn. rewrite (request_unsupported type s Hs). simpl.
    repeat (split; [assumption|]). rewrite <- app_assoc.
    apply Forall_app. split; [exact Ht|]. repeat constructor.
  - unfold spawn. rewrite (release_unsupported s Hs). simpl.
    repeat (split; [assumption|]). rewrite <- app_assoc.
    apply Forall_app. split; [exact Ht|]. repeat constructor.
  - unfold spawn.
    rewrite (destroy_unsupported (env := at_render (destroy_of render) env) s Hs). simpl.
    repeat (split; [assumption|]). rewrite <- app_assoc.
    apply Forall_app. split; [exact Ht|]. repeat constructor.
  - rewrite settle_eq, Hp. simpl. repeat (split; [assumption|]). exact Ht.
  - unfold try_catch, platform_release, bind, gets. rewrite Hh. simpl.
    repeat (split; [assumption|]). exact Ht.
  - unfold bind, modify, gets. simpl.
    rewrite dispatch_idle by exact Hc. simpl.
    repeat (split; [assumption|]). exact Ht.
  - unfold addEventListener, bind, emit, modify. simpl.
    repeat (split; [assumption|]). split.
    + intros r Hin. apply add_listener_inv in Hin.
      destruct Hin as [Hin|Hin]; [discriminate | exact (Hl r Hin)].
    + apply Forall_app. split; [exact Ht|]. repeat constructor.
Qed.

Lemma inert_run {env : HookEnv} (l : list action) (s : State) :
  isSupported = false -> inert s -> inert (run l s).
Proof.
  intros Hs. revert s. induction l as [|a l IH]; intros s H; simpl; [exact H|].
  apply IH, inert_exec; assumption.
Qed.

(** X1.  A hook mounted where the Wake Lock API is missing never leaves its
    initial condition, whatever the application and the host do: nothing is
    referenced, [released] stays undefined, no sentinel exists, nothing is
    awaited, no visibility handler of any render is registered, and the only
    effects are the warnings and the fulfilment of the returned promises (and
    the listeners other code registers): no platform call, no callback. *)
Theorem unsupported_hook_is_inert (o : WakeLockOptions) (l : list action) :
  let s := run (env := unsupported o) l initial in
  current s = None /\ released s = JUndefined /\ heap s = [] /\ pending s = []
  /\ (forall r, HandleVisibilityReturn r ∉ listeners s)
  /\ Forall (fun e => inert_effect e = true) (trace s).
Proof.
  apply (inert_run (env := unsupported o) l initial eq_refl).
  unfold inert. simpl. repeat (split; [reflexivity|]). split; [|constructor].
  intros r H. apply elem_of_nil in H. exact H.
Qed.

(** ** Calls without a sentinel *)

(** X2.  With the capability present and no sentinel referenced, [release]
    and [destroy] make no platform call and change no cell of the hook: each
    logs its "before request" warning and its promise is fulfilled. *)
Theorem calls_without_sentinel_only_warn {env : HookEnv} (s : State) :
  isSupported = true -> current s = None ->
  exec ARelease s
  = with_trace (trace s ++ [warning release_before_request_text;
                            EvSettled Public OpRelease Fulfilled]) s
  /\ exec ADestroy s
     = with_trace (trace s ++ [warning destroy_before_request_text;
                               EvSettled Public OpDestroy Fulfilled]) s.
Proof.
  intros Hs Hc. unfold exec. simpl. unfold spawn.
  rewrite (release_idle s Hs Hc),
    (destroy_idle (env := at_render (destroy_of render) env) s Hs Hc). simpl.
  unfold with_trace. simpl. rewrite <- !app_assoc. split; reflexivity.
Qed.

Lemma calls_without_sentinel_only_warn_witness :
  exec (env := supported no_callbacks) ARelease initial
  = with_trace [warning release_before_request_text;
                EvSettled Public OpRelease Fulfilled] initial.
Proof.
  exact (proj1 (calls_without_sentinel_only_warn (env := supported no_callbacks)
                  initial eq_refl eq_refl)).
Defined.

(** ** A first request *)

Lemma alter_install_fresh (hp : list WakeLockSentinel) (type : WakeLockType)
    (fld : option bool) :
  alter install (length hp) (hp ++ [mkSentinel type fld false])
  = hp ++ [mkSentinel type fld true].
Proof.
  rewrite alter_app_r_alt by lia. rewrite Nat.sub_diag. reflexivity.
Qed.

(** X3.  With the capability present and no sentinel referenced, a
    [request(type)] whose acquisition the platform grants, and whose
    [onRequest] (if any) returns, ends with the fresh sentinel referenced and
    carrying the release closure, the visibility handler of the render that
    created this [request] registered, and [released] set to the sentinel's
    [released] field, false when the field is false or undefined.  The
    effects are, in this order: the platform call, the store, the closure,
    the listener, [onRequest], [setReleased]; [onError] is not called. *)
Theorem fresh_request_succeeds
  {env : HookEnv} (type : WakeLockType) (fld : option bool) (s : State) :
  isSupported = true -> current s = None ->
  outcome_of (onRequest options) (fun f => f) = Normal tt ->
  let h := length (heap s) in
  let s' := run [ARequest type; ASettle (length (pending s)) (Fulfil fld)] s in
  current s' = Some h
  /\ released s' = JBool (initial_status fld)
  /\ heap s' = heap s ++ [mkSentinel type fld true]
  /\ listeners s' = add_listener (HandleVisibilityReturn render) (listeners s)
  /\ pending s' = pending s
  /\ trace s' = (trace s ++ [EvAcquire type; EvSetCurrent (Some h); EvSetOnrelease h;
                             EvAddListener (HandleVisibilityReturn render)]
                         ++ match onRequest options with
                            | Some _ => [EvOnRequest]
                            | None => []
                            end
                         ++ [EvSetReleased (JBool (initial_status fld));
                             EvSettled Public OpRequest Fulfilled]).
Proof.
  intros Hs Hc Hok. simpl. unfold exec. simpl. unfold spawn.
  rewrite (request_idle type s Hs Hc). simpl.
  rewrite settle_eq. simpl. rewrite list_lookup_middle by reflexivity. simpl.
  rewrite delete_middle, app_nil_r, at_render_self, finish_eq, request_resume_resolved.
  assert (Hflag : forall s0, heap s0 = heap s ++ [mkSentinel type fld true] ->
                             current s0 = Some (length (heap s)) ->
                             flag_reads_true s0 = initial_status fld).
  { intros s0 Hh Hc0. unfold flag_reads_true. rewrite Hc0, Hh.
    rewrite list_lookup_middle by reflexivity. simpl. destruct fld as [[|]|]; reflexivity. }
  destruct (onRequest options) as [[x|]|]; [discriminate Hok| |]; simpl;
    rewrite alter_install_fresh;
    (rewrite Hflag by (simpl; first [apply alter_install_fresh | reflexivity]));
    (split; [reflexivity|]);
    (split; [reflexivity|]); (split; [reflexivity|]); (split; [reflexivity|]);
    (split; [reflexivity|]); rewrite <- !app_assoc; reflexivity.
Qed.

Lemma fresh_request_succeeds_witness :
  let s' := run (env := supported all_callbacks) acquire_once initial in
  current s' = Some 0 /\ released s' = JBool false.
Proof.
  destruct (fresh_request_succeeds (env := supported all_callbacks)
              screen (Some false) initial eq_refl eq_refl eq_refl)
    as (Hc & Hr & _).
  split; [exact Hc | exact Hr].
Defined.

(** ** What every reachable state satisfies *)

Section Coherence.

Context {env : HookEnv}.

Lemma platform_release_eq (h : handle) (e : Event) (s : State) (sn : WakeLockSentinel) :
  heap s !! h = Some sn -> sn_onrelease sn = true ->
  snd (platform_release h e s)
  = mkState (current s) (JBool true) (<[h := released_sentinel sn]> (heap s))
      (listeners s) (visibilityState s) (pending s)
      (trace s ++ [EvSetReleased (JBool true)]
               ++ called (onRelease options) (EvOnRelease e)).
Proof.
  intros Hh Hi. destruct sn as [ty fl on]. simpl in Hi. subst on.
  unfold platform_release, bind, gets, modify. rewrite Hh. simpl.
  rewrite onrelease_eq. reflexivity.
Qed.

Lemma platform_release_heap (h : handle) (e : Event) (s : State) :
  heap (snd (platform_release h e s))
  = match heap s !! h with
    | Some sn => <[h := released_sentinel sn]> (heap s)
    | None => heap s
    end.
Proof.
  unfold platform_release, bind, gets, modify.
  destruct (heap s !! h) as [[ty fl [|]]|]; simpl; [|reflexivity|reflexivity].
  rewrite onrelease_eq. reflexivity.
Qed.

Lemma live_cells (s s' : State) :
  current s' = current s -> heap s' = heap s ->
  referenced_live s -> referenced_live s'.
Proof.
  intros Hc Hh H. unfold referenced_live. rewrite Hc, Hh. exact H.
Qed.

Lemma live_same_cells (s s' : State) :
  same_cells s s' -> referenced_live s -> referenced_live s'.
Proof.
  intros (Hc & _ & Hh & _). apply live_cells; assumption.
Qed.

Lemma live_initial : referenced_live initial.
Proof. intros h H. discriminate. Qed.

Lemma live_settle (i : nat) (r : settlement) (s : State) :
  referenced_live s -> referenced_live (snd (settle i r s)).
Proof.
  intros Hco. rewrite settle_eq.
  destruct (pending s !! i) as [[who k]|]; [|exact Hco].
  destruct k as [c type|h|c h]; simpl.
  - destruct r as [fld|e]; rewrite finish_eq.
    + rewrite request_resume_resolved. simpl.
      destruct (onRequest options) as [[x|]|]; simpl;
        intros h Hh; injection Hh as <-; simpl;
        rewrite alter_install_fresh, list_lookup_middle by reflexivity; eauto.
    + rewrite request_resume_rejected. simpl.
      revert Hco. apply live_cells; reflexivity.
  - rewrite finish_eq. destruct r; simpl;
      (revert Hco; apply live_cells; reflexivity).
  - rewrite finish_eq. destruct r; simpl.
    + rewrite destroy_then_eq. simpl. intros h' H. discriminate.
    + revert Hco. apply live_cells; reflexivity.
Qed.

Lemma live_exec (a : action) (s : State) :
  referenced_live s -> referenced_live (exec a s).
Proof.
  intros Hco. unfold exec. destruct a as [type| | |i r|h e|v|n]; simpl.
  - eapply live_same_cells; [|exact Hco].
    apply spawn_cells, request_sync.
  - eapply live_same_cells; [|exact Hco].
    apply spawn_cells, release_sync.
  - eapply live_same_cells; [|exact Hco].
    apply spawn_cells, (destroy_sync (env := at_render (destroy_of render) env)).
  - apply live_settle, Hco.
  - unfold try_catch.
    destruct (platform_release_cells h e s) as (Hc & _).
    pose proof (platform_release_heap h e s) as Hh.
    destruct (platform_release h e s) as [[[]|x] s']; simpl in *;
      (intros h' Hh'; rewrite Hc in Hh'; destruct (Hco h' Hh') as (sn' & Hsn' & Hi');
       rewrite Hh; destruct (heap s !! h) as [sn|] eqn:Hsn; [|eauto];
       destruct (decide (h = h')) as [->|Hne];
       [ rewrite list_lookup_insert_eq by (eapply lookup_lt_Some; exact Hsn);
         rewrite Hsn' in Hsn; injection Hsn as <-; eauto
       | rewrite list_lookup_insert_ne by exact Hne; eauto ]).
  - unfold bind, modify, gets. simpl.
    eapply live_same_cells; [apply dispatch_cells|].
    revert Hco. apply live_cells; reflexivity.
  - unfold addEventListener, bind, emit, modify. simpl. exact Hco.
Qed.

Lemma live_run (l : list action) (s : State) :
  referenced_live s -> referenced_live (run l s).
Proof.
  revert s. induction l as [|a l IH]; intros s H; simpl; [exact H|].
  apply IH, live_exec, H.
Qed.

Lemma coherent_initial : coherent initial.
Proof.
  split; [|exact live_initial].
  intros H. apply elem_of_nil in H. contradiction.
Qed.

(** When the [destroy] in use was created by the render that created the
    [request] in use, a teardown removes the handler that was registered. *)
Lemma coherent_exec (a : action) (s : State) :
  destroy_of render = render -> well_formed s ->
  coherent s -> coherent (exec a s).
Proof.
  intros Hst Hwf [Hout Hlive]. split; [|apply live_exec, Hlive].
  assert (Hframe : forall s', current s' = current s -> listeners s' = listeners s ->
                     HandleVisibilityReturn render ∈ listeners s' -> current s' <> None).
  { intros s' Hc Hl. rewrite Hc, Hl. exact Hout. }
  unfold exec. destruct a as [type| | |i r|h e|v|n]; simpl.
  - destruct (spawn_cells Public OpRequest (request type) s (proj2 (request_sync type s)))
      as [_ (Hc & _ & _ & Hl & _)].
    apply Hframe; assumption.
  - destruct (spawn_cells Public OpRelease release s (proj2 (release_sync s)))
      as [_ (Hc & _ & _ & Hl & _)].
    apply Hframe; assumption.
  - set (env' := at_render (destroy_of render) env).
    destruct (spawn_cells Public OpDestroy (destroy (env := env')) s
                (proj2 (destroy_sync (env := env') s)))
      as [_ (Hc & _ & _ & Hl & _)].
    apply Hframe; assumption.
  - rewrite settle_eq.
    destruct (pending s !! i) as [[who k]|] eqn:Hi; [|exact Hout].
    assert (Hown : own_cont k).
    { destruct Hwf as (_ & _ & _ & _ & Hps).
      apply (Hps who). apply list_elem_of_lookup. eauto. }
    destruct k as [c type|h|c h]; simpl in Hown |- *.
    + destruct r as [fld|e]; rewrite finish_eq.
      * rewrite request_resume_resolved. simpl.
        destruct (onRequest options) as [[x|]|]; simpl; intros _; discriminate.
      * rewrite request_resume_rejected. simpl. exact Hout.
    + rewrite finish_eq. destruct r; simpl; exact Hout.
    + rewrite finish_eq. destruct r; simpl; [|exact Hout].
      rewrite destroy_then_eq. simpl. subst c. rewrite Hst.
      intros H. exfalso. exact (remove_listener_removes _ _ H).
  - unfold try_catch.
    destruct (platform_release_cells h e s) as (Hc & Hl & _).
    destruct (platform_release h e s) as [[[]|x] s']; simpl in *;
      apply Hframe; assumption.
  - unfold bind, modify, gets. simpl.
    destruct (dispatch_cells (listeners s) (with_visibility v s))
      as (Hc & _ & _ & Hl & _).
    apply Hframe; assumption.
  - unfold addEventListener, bind, emit, modify. simpl.
    intros H. apply add_listener_inv in H.
    destruct H as [H|H]; [discriminate | exact (Hout H)].
Qed.

Lemma coherent_run (l : list action) (s : State) :
  destroy_of render = render -> well_formed s ->
  coherent s -> coherent (run l s).
Proof.
  intros Hst. revert s. induction l as [|a l IH]; intros s Hwf H; simpl; [exact H|].
  apply IH; [apply well_formed_exec, Hwf | apply coherent_exec; assumption].
Qed.

End Coherence.

Lemma live_run_renders {env : HookEnv} (l : list (nat * action)) (s : State) :
  referenced_live s -> referenced_live (run_renders l s).
Proof.
  revert s. induction l as [|[r a] l IH]; intros s H; simpl; [exact H|].
  apply IH, (live_exec (env := at_render r env)), H.
Qed.

(** X4.  Whatever closures the application calls, of whichever renders
    and in whichever order, and whatever the platform does in between: the
    sentinel in [wakeLock.current], when there is one, is a sentinel the
    platform handed out, and it carries the release closure that [request]
    installed. *)
Theorem referenced_sentinel_is_live {env : HookEnv} (l : list (nat * action)) (h : handle) :
  current (run_renders l initial) = Some h ->
  exists sn, heap (run_renders l initial) !! h = Some sn /\ sn_onrelease sn = true.
Proof.
  exact (live_run_renders l initial live_initial h).
Qed.

Lemma referenced_sentinel_is_live_witness :
  exists sn,
    heap (run_renders (env := inline all_callbacks 0)
            [(0, ARequest screen); (0, ASettle 0 (Fulfil (Some false)));
             (1, ADestroy); (2, ARequest screen); (2, ASettle 2 (Fulfil (Some false)))]
            initial) !! 1 = Some sn
    /\ sn_onrelease sn = true.
Proof.
  apply (referenced_sentinel_is_live (env := inline all_callbacks 0)
           [(0, ARequest screen); (0, ASettle 0 (Fulfil (Some false)));
            (1, ADestroy); (2, ARequest screen); (2, ASettle 2 (Fulfil (Some false)))] 1).
  vm_compute. reflexivity.
Defined.

(** X5.  When the [destroy] in use was created by the render that created
    the [request] in use (the application's option callbacks keep their
    identity across renders), then in every state their calls can reach the
    visibility handler is registered exactly while a sentinel is referenced,
    and never more than once: repeated acquisitions do not stack listeners,
    and none is left behind once the reference is cleared. *)
Theorem handler_registered_while_referenced {env : HookEnv} (l : list action) :
  destroy_of render = render ->
  let s := run l initial in
  count_handler (listeners s) = (if non_null (current s) then 1 else 0).
Proof.
  intros Hst s.
  assert (Hwf : well_formed s) by apply well_formed_run, well_formed_initial.
  assert (Hco : coherent s).
  { apply coherent_run; [exact Hst | apply well_formed_initial | apply coherent_initial]. }
  destruct Hwf as (Hnd & Hin & _ & Hls & _), Hco as [Hout _].
  destruct (current s) as [h|]; simpl.
  - apply (count_handler_one _ render); [exact Hnd | exact Hls |].
    apply Hin. discriminate.
  - apply count_handler_zero. intros r H.
    rewrite (Hls r H) in H. apply (Hout H). reflexivity.
Qed.

Lemma handler_registered_while_referenced_witness :
  let s := run (env := supported all_callbacks) acquire_once initial in
  count_handler (listeners s) = (if non_null (current s) then 1 else 0).
Proof.
  exact (handler_registered_while_referenced (env := supported all_callbacks)
           acquire_once eq_refl).
Defined.

(** ** Visibility changes *)

(** X6.  A visibility change under which the three conditions of the
    handler do not all hold (the document is hidden, or nothing is
    referenced, or the referenced sentinel's [released] field does not read
    true) has no effect on the hook: no call, no pending work, no write;
    only [document.visibilityState] differs.  This holds in any state. *)
Theorem unqualified_visibility_change_is_silent
  {env : HookEnv} (v : DocumentVisibilityState) (s : State) :
  visible_held_released v s = false ->
  exec (AVisibilityChange v) s = with_visibility v s.
Proof.
  intros Hq. unfold exec. simpl. unfold bind, modify, gets. simpl.
  rewrite dispatch_unqualified; [reflexivity|]. exact Hq.
Qed.

Lemma unqualified_visibility_change_is_silent_witness :
  exec (env := supported all_callbacks) (AVisibilityChange visible) held
  = with_visibility visible held.
Proof.
  apply (unqualified_visibility_change_is_silent (env := supported all_callbacks)).
  vm_compute. reflexivity.
Defined.

Lemma try_catch_swallow_state {A} (m : M A) (a : A) (s : State) :
  snd (try_catch m (fun _ => ret a) s) = snd (m s).
Proof. unfold try_catch. destruct (m s) as [[x|e] s']; reflexivity. Qed.

(** X7.  The recovery path, when every call so far was made through the
    closures of one render (as when the option callbacks keep their
    identity), so that one handler is registered.  With sentinel [h]
    referenced on a platform that has the [released] field: when the
    platform releases [h], the release closure sets [released] to true and
    calls [onRelease], and the reference stays; the next change to visible
    then runs [request()] once, which first calls [release()] on the already
    released sentinel through [destroy] and then asks the platform for a new
    lock. *)
Theorem platform_release_then_visible_reacquires
  {env : HookEnv} (l : list action) (h : handle) (sn : WakeLockSentinel)
  (b : bool) (e : Event) :
  let s := run l initial in
  current s = Some h -> heap s !! h = Some sn -> sn_released sn = Some b ->
  let s1 := exec (APlatformRelease h e) s in
  let s2 := exec (AVisibilityChange visible) s1 in
  s1 = mkState (Some h) (JBool true) (<[h := released_sentinel sn]> (heap s))
         (listeners s) (visibilityState s) (pending s)
         (trace s ++ [EvSetReleased (JBool true)]
                  ++ match onRelease options with
                     | Some _ => [EvOnRelease e]
                     | None => []
                     end)
  /\ s2 = with_pending (pending s1 ++ [(Internal, KDestroy (destroy_of render) h);
                                       (Internal, KRequest render screen)])
            (with_trace (trace s1 ++ [EvSentinelRelease h; EvAcquire screen])
               (with_visibility visible s1)).
Proof.
  intros s Hc Hh Hr.
  assert (Hwf : well_formed s) by apply well_formed_run, well_formed_initial.
  assert (Hinst : referenced_live s) by apply live_run, live_initial.
  destruct Hwf as (Hnd & Hin & Hun & Hls & _).
  destruct (Hinst h Hc) as (sn' & Hsn' & Hi). rewrite Hh in Hsn'. injection Hsn' as <-.
  assert (Hs : isSupported = true).
  { destruct isSupported eqn:E; [reflexivity|].
    destruct (Hun eq_refl) as [Hc' _]. congruence. }
  assert (H1 : exec (APlatformRelease h e) s
               = mkState (Some h) (JBool true) (<[h := released_sentinel sn]> (heap s))
                   (listeners s) (visibilityState s) (pending s)
                   (trace s ++ [EvSetReleased (JBool true)]
                            ++ called (onRelease options) (EvOnRelease e))).
  { unfold exec. simpl. rewrite try_catch_swallow_state.
    rewrite (platform_release_eq h e s sn Hh Hi), Hc. reflexivity. }
  split; [exact H1|]. cbv zeta. rewrite H1.
  set (s1 := mkState _ _ _ _ _ _ _).
  unfold exec. simpl. unfold bind, modify, gets. simpl.
  rewrite (dispatch_once _ render); [|exact Hnd | exact Hls | apply Hin; congruence].
  rewrite at_render_self, handleVisibilityReturn_eq.
  assert (Hq : visible_held_released visible (with_visibility visible s1) = true).
  { unfold visible_held_released, flag_reads_true. simpl.
    rewrite list_lookup_insert_eq by (eapply lookup_lt_Some; exact Hh).
    simpl. rewrite Hr. reflexivity. }
  simpl in Hq. simpl. rewrite Hq.
  unfold spawn.
  rewrite (request_active screen (with_visibility visible s1) h Hs eq_refl).
  simpl. unfold with_pending. simpl. rewrite <- (app_assoc (pending s)). reflexivity.
Qed.

Lemma platform_release_then_visible_reacquires_witness :
  released (exec (env := supported all_callbacks) (APlatformRelease 0 3) held) = JBool true.
Proof.
  destruct (platform_release_then_visible_reacquires (env := supported all_callbacks)
              acquire_once 0 (mkSentinel screen (Some false) true) false 3
              eq_refl eq_refl eq_refl) as [H1 _].
  exact (f_equal released H1).
Defined.

(** X8.  On a platform without the [released] field the recovery path is
    dead: when the platform releases the referenced sentinel, the release
    closure still sets [released] to true, but the field of the sentinel
    stays undefined, so no later visibility change makes the handler ask
    for the lock again. *)
Theorem no_released_field_no_reacquisition
  {env : HookEnv} (s : State) (h : handle) (sn : WakeLockSentinel) (e : Event) :
  current s = Some h -> heap s !! h = Some sn ->
  sn_released sn = None -> sn_onrelease sn = true ->
  let s1 := exec (APlatformRelease h e) s in
  released s1 = JBool true
  /\ current s1 = Some h
  /\ forall v, exec (AVisibilityChange v) s1 = with_visibility v s1.
Proof.
  intros Hc Hh Hr Hi. cbv zeta.
  assert (H1 : exec (APlatformRelease h e) s
               = mkState (Some h) (JBool true) (<[h := released_sentinel sn]> (heap s))
                   (listeners s) (visibilityState s) (pending s)
                   (trace s ++ [EvSetReleased (JBool true)]
                            ++ called (onRelease options) (EvOnRelease e))).
  { unfold exec. simpl. rewrite try_catch_swallow_state.
    rewrite (platform_release_eq h e s sn Hh Hi), Hc. reflexivity. }
  rewrite H1. split; [reflexivity|]. split; [reflexivity|].
  intros v. unfold exec. simpl. unfold bind, modify, gets. simpl.
  rewrite dispatch_unqualified; [reflexivity|].
  unfold visible_held_released, flag_reads_true. simpl.
  rewrite list_lookup_insert_eq by (eapply lookup_lt_Some; exact Hh).
  simpl. rewrite Hr. simpl. rewrite andb_false_r. reflexivity.
Qed.

Lemma no_released_field_no_reacquisition_witness :
  let s1 := exec (env := supported all_callbacks) (APlatformRelease 0 3) held_no_field in
  released s1 = JBool true
  /\ exec (env := supported all_callbacks) (AVisibilityChange visible) s1
     = with_visibility visible s1.
Proof.
  destruct (no_released_field_no_reacquisition (env := supported all_callbacks)
              held_no_field 0 (mkSentinel screen None true) 3
              eq_refl eq_refl eq_refl eq_refl) as (Hr & _ & Hv).
  split; [exact Hr | exact (Hv visible)].
Defined.

(** ** release and destroy, with the platform's release event *)

Lemma exec_platform_release {env : HookEnv} (h : handle) (e : Event) (s : State)
    (sn : WakeLockSentinel) :
  heap s !! h = Some sn -> sn_onrelease sn = true ->
  exec (APlatformRelease h e) s
  = mkState (current s) (JBool true) (<[h := released_sentinel sn]> (heap s))
      (listeners s) (visibilityState s) (pending s)
      (trace s ++ [EvSetReleased (JBool true)]
               ++ called (onRelease options) (EvOnRelease e)).
Proof.
  intros Hh Hi. unfold exec. simpl. rewrite try_catch_swallow_state.
  apply platform_release_eq; assumption.
Qed.

(** X9.  An explicit [release()] of the referenced sentinel, followed by
    the platform's release event for it, ends with [released] true (set by
    the release closure, not by [release] itself) and [onRelease] called,
    while the sentinel is still referenced and the visibility handler still
    registered: [release] leaves everything in place for the handler to ask
    for the lock again. *)
Theorem release_completed_by_release_event
  {env : HookEnv} (s : State) (h : handle) (sn : WakeLockSentinel)
  (e : Event) (fld : option bool) :
  isSupported = true -> current s = Some h ->
  heap s !! h = Some sn -> sn_onrelease sn = true ->
  run [ARelease; APlatformRelease h e; ASettle (length (pending s)) (Fulfil fld)] s
  = mkState (Some h) (JBool true) (<[h := released_sentinel sn]> (heap s))
      (listeners s) (visibilityState s) (pending s)
      (trace s ++ [EvSentinelRelease h; EvSetReleased (JBool true)]
               ++ match onRelease options with
                  | Some _ => [EvOnRelease e]
                  | None => []
                  end
               ++ [EvSettled Public OpRelease Fulfilled]).
Proof.
  intros Hs Hc Hh Hi. simpl.
  assert (H1 : exec ARelease s
               = with_pending (pending s ++ [(Public, KRelease h)])
                   (with_trace (trace s ++ [EvSentinelRelease h]) s)).
  { unfold exec. simpl. unfold spawn. rewrite (release_active s h Hs Hc). reflexivity. }
  rewrite H1. clear H1. set (s1 := with_pending _ _).
  rewrite (exec_platform_release h e s1 sn Hh Hi). subst s1. simpl.
  unfold exec. simpl. rewrite settle_eq. simpl.
  rewrite list_lookup_middle by reflexivity. simpl.
  rewrite delete_middle, app_nil_r, Hc. unfold with_trace; simpl.
  rewrite <- !app_assoc. reflexivity.
Qed.

Lemma release_completed_by_release_event_witness :
  released (run (env := supported all_callbacks)
              [ARelease; APlatformRelease 0 3; ASettle 0 (Fulfil None)] held)
  = JBool true.
Proof.
  exact (f_equal released
           (release_completed_by_release_event (env := supported all_callbacks)
              held 0 (mkSentinel screen (Some false) true) 3 None
              eq_refl eq_refl eq_refl eq_refl)).
Defined.

(** X10.  A [destroy()] of the referenced sentinel during which the
    platform fires the release event ends with nothing referenced and
    [released] true; [onRelease] is called before [onDestroy].  The listener
    it removes is the handler of the render that created this [destroy]:
    the registered handler when that render also created the [request] that
    registered it, and otherwise the function of another render.  The
    status after a completed teardown reads "released", it is not reset to
    undefined. *)
Theorem destroy_completed_with_release_event
  {env : HookEnv} (s : State) (h : handle) (sn : WakeLockSentinel)
  (e : Event) (fld : option bool) :
  isSupported = true -> current s = Some h ->
  heap s !! h = Some sn -> sn_onrelease sn = true ->
  run [ADestroy; APlatformRelease h e; ASettle (length (pending s)) (Fulfil fld)] s
  = mkState None (JBool true) (<[h := released_sentinel sn]> (heap s))
      (remove_listener (HandleVisibilityReturn (destroy_of render)) (listeners s))
      (visibilityState s) (pending s)
      (trace s ++ [EvSentinelRelease h; EvSetReleased (JBool true)]
               ++ match onRelease options with
                  | Some _ => [EvOnRelease e]
                  | None => []
                  end
               ++ [EvRemoveListener (HandleVisibilityReturn (destroy_of render));
                   EvSetCurrent None]
               ++ match onDestroy options with
                  | Some _ => [EvOnDestroy]
                  | None => []
                  end
               ++ [EvSettled Public OpDestroy
                     (promise_of (outcome_of (onDestroy options) (fun f => f)))]).
Proof.
  intros Hs Hc Hh Hi. simpl.
  assert (H1 : exec ADestroy s
               = with_pending (pending s ++ [(Public, KDestroy (destroy_of render) h)])
                   (with_trace (trace s ++ [EvSentinelRelease h]) s)).
  { unfold exec. simpl. unfold spawn.
    rewrite (destroy_active (env := at_render (destroy_of render) env) s h Hs Hc).
    reflexivity. }
  rewrite H1. clear H1. set (s1 := with_pending _ _).
  rewrite (exec_platform_release h e s1 sn Hh Hi). subst s1. simpl.
  unfold exec. simpl. rewrite settle_eq. simpl.
  rewrite list_lookup_middle by reflexivity. simpl.
  rewrite delete_middle, app_nil_r, finish_eq. simpl.
  rewrite destroy_then_eq. simpl. unfold with_trace; simpl.
  rewrite <- !app_assoc. reflexivity.
Qed.

Lemma destroy_completed_with_release_event_witness :
  released (run (env := supported all_callbacks)
              [ADestroy; APlatformRelease 0 3; ASettle 0 (Fulfil None)] held)
  = JBool true.
Proof.
  exact (f_equal released
           (destroy_completed_with_release_event (env := supported all_callbacks)
              held 0 (mkSentinel screen (Some false) true) 3 None
              eq_refl eq_refl eq_refl eq_refl)).
Defined.

(** ** A superseding request whose teardown settles first *)

(** The trace once the old sentinel has been torn down. *)
Lemma superseding_teardown {env : HookEnv} (type : WakeLockType) (s : State)
    (h : handle) (fld' : option bool) :
  isSupported = true -> current s = Some h ->
  exec (ASettle (length (pending s)) (Fulfil fld')) (exec (ARequest type) s)
  = mkState None (released s) (heap s)
      (remove_listener (HandleVisibilityReturn (destroy_of render)) (listeners s))
      (visibilityState s) (pending s ++ [(Public, KRequest render type)])
      (((trace s ++ [EvSentinelRelease h; EvAcquire type])
          ++ [EvRemoveListener (HandleVisibilityReturn (destroy_of render)); EvSetCurrent None]
          ++ called (onDestroy options) EvOnDestroy)
         ++ [EvSettled Internal OpDestroy
               (promise_of (outcome_of (onDestroy options) (fun f => f)))]).
Proof.
  intros Hs Hc.
  assert (H1 : exec (ARequest type) s
               = with_pending (pending s ++ [(Internal, KDestroy (destroy_of render) h);
                                             (Public, KRequest render type)])
                   (with_trace (trace s ++ [EvSentinelRelease h; EvAcquire type]) s)).
  { unfold exec. simpl. unfold spawn. rewrite (request_active type s h Hs Hc). simpl.
    unfold with_pending. simpl. rewrite <- (app_assoc (pending s)). reflexivity. }
  rewrite H1. clear H1.
  unfold exec. simpl. rewrite settle_eq. simpl.
  rewrite list_lookup_middle by reflexivity. simpl.
  rewrite delete_middle, finish_eq. simpl. rewrite destroy_then_eq. reflexivity.
Qed.

(** X11.  A [request(type)] made while sentinel [h] is referenced, when
    the promise of the old sentinel's [release()] is fulfilled before the
    new acquisition: the old reference is torn down, then the fresh sentinel
    is stored.  Afterwards the fresh sentinel is the one referenced, it is
    of the requested type and carries the release closure, nothing is left
    pending, and the platform was asked for one lock.  The listeners are
    the old ones with the handler of the render that created the [destroy]
    this [request] holds removed, and then the handler of the render that
    created this [request] added. *)
Theorem superseding_request_after_teardown
  {env : HookEnv} (type : WakeLockType) (s : State) (h : handle)
  (fld' fld : option bool) :
  isSupported = true -> current s = Some h ->
  let s' := run [ARequest type;
                 ASettle (length (pending s)) (Fulfil fld');
                 ASettle (length (pending s)) (Fulfil fld)] s in
  current s' = Some (length (heap s))
  /\ heap s' = heap s ++ [mkSentinel type fld true]
  /\ listeners s'
     = add_listener (HandleVisibilityReturn render)
         (remove_listener (HandleVisibilityReturn (destroy_of render)) (listeners s))
  /\ pending s' = pending s
  /\ acquisitions (trace s') = acquisitions (trace s) + 1.
Proof.
  intros Hs Hc. cbv zeta.
  change (run [ARequest type;
               ASettle (length (pending s)) (Fulfil fld');
               ASettle (length (pending s)) (Fulfil fld)] s)
    with (exec (ASettle (length (pending s)) (Fulfil fld))
            (exec (ASettle (length (pending s)) (Fulfil fld'))
               (exec (ARequest type) s))).
  rewrite (superseding_teardown type s h fld' Hs Hc).
  set (t2 := ((trace s ++ [EvSentinelRelease h; EvAcquire type])
                ++ [EvRemoveListener (HandleVisibilityReturn (destroy_of render));
                    EvSetCurrent None]
                ++ called (onDestroy options) EvOnDestroy)
               ++ [EvSettled Internal OpDestroy
                     (promise_of (outcome_of (onDestroy options) (fun f => f)))]).
  unfold exec. simpl. rewrite settle_eq. simpl.
  rewrite list_lookup_middle by reflexivity. simpl.
  rewrite delete_middle, app_nil_r, finish_eq, request_resume_resolved.
  assert (Hcalled : forall A (f : option A) ev,
             is_acquire ev = false -> acquisitions (called f ev) = 0).
  { intros A [g|] ev Hev; unfold acquisitions; simpl; [rewrite Hev|]; reflexivity. }
  assert (Ht2 : acquisitions t2 = acquisitions (trace s) + 1).
  { unfold t2. rewrite !acquisitions_app, Hcalled by reflexivity.
    unfold acquisitions. simpl. lia. }
  destruct (onRequest options) as [[x|]|]; simpl;
    rewrite alter_install_fresh;
    (split; [reflexivity|]); (split; [reflexivity|]);
    (split; [reflexivity|]); (split; [reflexivity|]);
    rewrite !acquisitions_app, Ht2, ?Hcalled by reflexivity;
    unfold acquisitions, called; destruct (onError options); simpl; lia.
Qed.

Lemma superseding_request_after_teardown_witness :
  current (run (env := supported all_callbacks)
             [ARequest screen; ASettle 0 (Fulfil None); ASettle 0 (Fulfil (Some false))]
             held)
  = Some 1.
Proof.
  exact (proj1 (superseding_request_after_teardown (env := supported all_callbacks)
                  screen held 0 None (Some false) eq_refl eq_refl)).
Defined.


